(** * MFSU plugin (umi, preset-built-in/plugins/features/mfsu/mfsu.ts)

    A shallow embedding of the plugin's configuration checks, cache-path
    selection, dependency build driver, CLI command and request
    middleware, with the collaborators that the plugin only calls
    (DepInfo, DepBuilder, getDepVersion, utils.copy) given as explicit
    models, and the library functions that the middleware calls (the
    regular-expression engine, mime.lookup, the decoding of a file) as
    a record of the runtime. *)

From Stdlib Require Import Ascii.
From stdpp Require Import base option list strings gmap fin_maps pretty.


(** ** Results of fallible JavaScript code *)

Inductive Result (A : Type) : Type :=
| Ok (a : A)
| Throw (msg : string).
Arguments Ok {A} a.
Arguments Throw {A} msg.

Definition rbind {A B} (r : Result A) (k : A -> Result B) : Result B :=
  match r with
  | Ok a => k a
  | Throw m => Throw m
  end.

(** [assert(cond, msg)] of Node's assert module. *)
Definition assert (cond : bool) (msg : string) : Result unit :=
  if cond then Ok tt else Throw msg.

(** ** Strings *)

Module Str.

Definition slash : ascii := "/"%char.
Definition dot : ascii := "."%char.

(** [s.slice(1)] *)
Definition slice1 (s : string) : string :=
  match s with
  | EmptyString => EmptyString
  | String _ r => r
  end.

Definition is_empty (s : string) : bool :=
  match s with
  | EmptyString => true
  | String _ _ => false
  end.

(** first character is a slash: posix [isAbsolute] *)
Definition starts_with_slash (s : string) : bool :=
  match s with
  | String c _ => bool_decide (c = slash)
  | EmptyString => false
  end.

Fixpoint ends_with_slash (s : string) : bool :=
  match s with
  | EmptyString => false
  | String c EmptyString => bool_decide (c = slash)
  | String _ r => ends_with_slash r
  end.

(** [s.split(sep)] for a one-character separator; always at least one
    piece. [cur] holds the reversed characters of the piece being read. *)
Fixpoint split_go (sep : ascii) (cur : string) (s : string) : list string :=
  match s with
  | EmptyString => [String.rev cur]
  | String c r =>
      if bool_decide (c = sep)
      then String.rev cur :: split_go sep EmptyString r
      else split_go sep (String c cur) r
  end.

Definition split (sep : ascii) (s : string) : list string :=
  split_go sep EmptyString s.

(** [l.join(sep)] *)
Fixpoint join (sep : string) (l : list string) : string :=
  match l with
  | [] => EmptyString
  | [x] => x
  | x :: r => x +:+ sep +:+ join sep r
  end.

(** literal prefix test, [s.startsWith(p)] *)
Fixpoint starts_with (p s : string) : bool :=
  match p, s with
  | EmptyString, _ => true
  | String a p', String b s' => bool_decide (a = b) && starts_with p' s'
  | String _ _, EmptyString => false
  end.

End Str.

(** ** The regular expressions the plugin uses

    The expressions written in the source are [/\.mfsu/],
    [/remoteEntry.js/] and [/babel-preset-umi/]: sequences of literal
    characters and of the wildcard [.]. The expression that the
    middleware builds from the public path at run time,
    [new RegExp(`^${publicPath}`)], can hold any operator and can be
    malformed; it is left to the engine of the runtime (see [Runtime]). *)

Module Re.

Inductive atom : Type :=
| Lit (c : ascii)
| AnyChar.

Definition line_terminator (c : ascii) : bool :=
  bool_decide (c = "010"%char) || bool_decide (c = "013"%char).

Definition atom_matches (a : atom) (c : ascii) : bool :=
  match a with
  | Lit d => bool_decide (c = d)
  | AnyChar => negb (line_terminator c)
  end.

(** match [re] at the start of [s]; the rest of [s] after the match *)
Fixpoint match_here (re : list atom) (s : string) : option string :=
  match re with
  | [] => Some s
  | a :: re' =>
      match s with
      | String c s' => if atom_matches a c then match_here re' s' else None
      | EmptyString => None
      end
  end.

(** [re.test(s)] for an expression without anchor *)
Fixpoint test (re : list atom) (s : string) : bool :=
  match match_here re s with
  | Some _ => true
  | None =>
      match s with
      | EmptyString => false
      | String _ s' => test re s'
      end
  end.

(** [s.replace(re, by)] for the expression [re] anchored at the start *)
Definition replace_prefix (re : list atom) (by_ : string) (s : string) : string :=
  match match_here re s with
  | Some rest => by_ +:+ rest
  | None => s
  end.

Fixpoint literal (s : string) : list atom :=
  match s with
  | EmptyString => []
  | String c r => Lit c :: literal r
  end.

(** letters, digits, [/], [-] and [_]: characters that stand for
    themselves in the source of an expression *)
Definition ordinary (c : ascii) : bool :=
  let n := N_of_ascii c in
  ((48 <=? n)%N && (n <=? 57)%N) || ((65 <=? n)%N && (n <=? 90)%N)
  || ((97 <=? n)%N && (n <=? 122)%N)
  || bool_decide (c = "/"%char) || bool_decide (c = "-"%char)
  || bool_decide (c = "_"%char).

Fixpoint all_ordinary (s : string) : bool :=
  match s with
  | EmptyString => true
  | String c r => ordinary c && all_ordinary r
  end.

(** [/\.mfsu/] *)
Definition dot_mfsu : list atom := literal ".mfsu".

(** [/remoteEntry.js/] *)
Definition remoteEntry_js : list atom :=
  literal "remoteEntry" ++ AnyChar :: literal "js".

End Re.

(** ** Node's [path] module (posix) *)

Module Path.

(** [normalizeString]: [stack] is the reversed list of kept segments *)
Fixpoint normalize_segs (allowAboveRoot : bool) (stack : list string)
         (segs : list string) : list string :=
  match segs with
  | [] => rev stack
  | seg :: rest =>
      if bool_decide (seg = "") || bool_decide (seg = ".")
      then normalize_segs allowAboveRoot stack rest
      else if bool_decide (seg = "..")
      then match stack with
           | top :: below =>
               if bool_decide (top = "..")
               then normalize_segs allowAboveRoot
                      (if allowAboveRoot then ".." :: stack else stack) rest
               else normalize_segs allowAboveRoot below rest
           | [] =>
               normalize_segs allowAboveRoot
                 (if allowAboveRoot then [".."] else []) rest
           end
      else normalize_segs allowAboveRoot (seg :: stack) rest
  end.

(** [path.normalize] *)
Definition normalize (p : string) : string :=
  if Str.is_empty p then "."
  else
    let isAbsolute := Str.starts_with_slash p in
    let trailingSeparator := Str.ends_with_slash p in
    let body := Str.join "/" (normalize_segs (negb isAbsolute) [] (Str.split Str.slash p)) in
    if Str.is_empty body
    then (if isAbsolute then "/" else if trailingSeparator then "./" else ".")
    else
      let body' := if trailingSeparator then body +:+ "/" else body in
      if isAbsolute then "/" +:+ body' else body'.

(** [path.join(...args)] *)
Definition join (args : list string) : string :=
  let parts := filter (fun a => Str.is_empty a = false) args in
  match parts with
  | [] => "."
  | _ => normalize (Str.join "/" parts)
  end.

(** suffix of [s] that starts at its last dot *)
Fixpoint last_dot_suffix (s : string) : option string :=
  match s with
  | EmptyString => None
  | String c r =>
      match last_dot_suffix r with
      | Some x => Some x
      | None => if bool_decide (c = Str.dot) then Some s else None
      end
  end.

(** last non-empty segment: the base name, trailing slashes ignored *)
Definition basename (p : string) : string :=
  default "" (last (filter (fun a => Str.is_empty a = false) (Str.split Str.slash p))).

(** [path.parse(p).ext]: a dot in first position of the base name does
    not start an extension, and [..] has none *)
Definition ext (p : string) : string :=
  let base := basename p in
  if bool_decide (base = "..") then ""
  else match base with
       | EmptyString => ""
       | String _ r => default "" (last_dot_suffix r)
       end.

End Path.

(** ** Configuration and host interface *)

Inductive TMode : Type :=
| development
| production.

#[global] Instance TMode_eq_dec : EqDecision TMode.
Proof. solve_decision. Defined.

Definition mode_name (m : TMode) : string :=
  match m with
  | development => "development"
  | production => "production"
  end.

(** [mfsu.development] / [mfsu.production]: [joi.object({ output: joi.string() })] *)
Record ModeConfig : Type := {
  output : option string
}.

Record MfsuConfig : Type := {
  mfsu_development : option ModeConfig;
  mfsu_production : option ModeConfig;
  mfName : option string
}.

Record Config : Type := {
  mfsu : option MfsuConfig;
  outputPath : option string
}.

(** the part of [IApi] the plugin reads *)
Record Api : Type := {
  cwd : string;
  absTmpPath : string;
  userConfig : Config;
  config : Config
}.

(** JavaScript truthiness of an optional string: [undefined] and the
    empty string are falsy. *)
Definition truthy_str (o : option string) : option string :=
  match o with
  | Some s => if Str.is_empty s then None else Some s
  | None => None
  end.

(** [c.mfsu?.development?.output] and [c.mfsu?.production?.output] *)
Definition configured_output (c : Config) (m : TMode) : option string :=
  mc ← mfsu c;
  sub ← (match m with
         | development => mfsu_development mc
         | production => mfsu_production mc
         end);
  output sub.

(** [checkConfig] *)
Definition checkConfig (api : Api) : Result unit :=
  rbind
    (match truthy_str (configured_output (config api) development) with
     | Some out =>
         assert (Re.test Re.dot_mfsu out)
                "[MFSU] mfsu.development.output must match /.mfsu/."
     | None => Ok tt
     end)
    (fun _ =>
       match truthy_str (configured_output (config api) production) with
       | Some out =>
           assert (Re.test Re.dot_mfsu out)
                  "[MFSU] mfsu.production.output must match /.mfsu/."
       | None => Ok tt
       end).

(** [getMfsuPath] *)
Definition getMfsuPath (api : Api) (mode : TMode) : string :=
  match mode with
  | development =>
      match truthy_str (configured_output (userConfig api) development) with
      | Some configPath => Path.join [cwd api; configPath]
      | None => Path.join [absTmpPath api; ".cache"; ".mfsu"]
      end
  | production =>
      match truthy_str (configured_output (userConfig api) production) with
      | Some configPath => Path.join [cwd api; configPath]
      | None => Path.join [cwd api; "./.mfsu-production"]
      end
  end.

(** ** JavaScript values that reach [memo.externals] *)

Inductive JsValue : Type :=
| JUndefined
| JNull
| JBool (b : bool)
| JNumber (z : Z)
| JString (s : string)
| JObject (o : gmap string string)
| JArray (l : list string)
| JRegExp (src : string)
| JFunction (src : string).

Definition typeof (v : JsValue) : string :=
  match v with
  | JUndefined => "undefined"
  | JNull => "object"
  | JBool _ => "boolean"
  | JNumber _ => "number"
  | JString _ => "string"
  | JObject _ | JArray _ | JRegExp _ => "object"
  | JFunction _ => "function"
  end.

Definition truthy (v : JsValue) : bool :=
  match v with
  | JUndefined | JNull => false
  | JBool b => b
  | JNumber z => negb (bool_decide (z = 0%Z))
  | JString s => negb (Str.is_empty s)
  | JObject _ | JArray _ | JRegExp _ | JFunction _ => true
  end.

(** [v || {}] *)
Definition or_empty_object (v : JsValue) : JsValue :=
  if truthy v then v else JObject ∅.

(** string conversion inside a template literal *)
Definition to_display (v : JsValue) : string :=
  match v with
  | JUndefined => "undefined"
  | JNull => "null"
  | JBool true => "true"
  | JBool false => "false"
  | JNumber z => pretty z
  | JString s => s
  | JObject _ => "[object Object]"
  | JArray l => Str.join "," l
  | JRegExp src => "/" +:+ src +:+ "/"
  | JFunction src => src
  end.

(** own enumerable string-keyed properties, as [Object.assign] reads them *)
Definition own_props (v : JsValue) : gmap string string :=
  match v with
  | JObject o => o
  | JArray l => list_to_map (imap (fun i x => (pretty i, x)) l)
  | _ => ∅
  end.

(** [Object.assign(target, source)]: the source's entries win *)
Definition object_assign (target source : gmap string string) : gmap string string :=
  source ∪ target.

(** ** Dependency tracker (DepInfo) *)

Record DepRecord : Type := {
  version : string;
  file : string
}.

#[global] Instance DepRecord_eq_dec : EqDecision DepRecord.
Proof. solve_decision. Defined.

Abbreviation Snapshot := (gmap string DepRecord).

Module Tracker.

(** Modelled from the spec: the state of class DepInfo (DepInfo.ts is
    not among the sources). [data_deps] is [depInfo.data.deps], the
    finalized dependency set; [pending] is the Pending Set of
    specifiers observed in the current pass; [persisted] is the
    Snapshot of the cache file. *)
Record DepInfo : Type := {
  data_deps : Snapshot;
  pending : gset string;
  persisted : Snapshot
}.

(** Modelled from the spec: the shouldBuild decision of DepInfo (section
    4.2): true iff the key sets of the persisted Snapshot and of the new
    resolution differ, or a specifier present in both has another
    version. *)
Definition version_changed (old : Snapshot) (entry : string * DepRecord) : bool :=
  match old !! entry.1 with
  | Some r => negb (bool_decide (version r = version entry.2))
  | None => false
  end.

Definition shouldBuild (old new : Snapshot) : bool :=
  negb (bool_decide (dom old = dom new))
  || existsb (version_changed old) (map_to_list new).

(** Modelled from the spec: DepInfo.addTmpDep, the observe operation:
    side effect only, deduplicating. *)
Definition addTmpDep (dep : string) (d : DepInfo) : DepInfo :=
  {| data_deps := data_deps d;
     pending := {[dep]} ∪ pending d;
     persisted := persisted d |}.

(** Modelled from the spec: clearing the Pending Set at the start of a
    pass. *)
Definition startPass (d : DepInfo) : DepInfo :=
  {| data_deps := data_deps d; pending := ∅; persisted := persisted d |}.

Fixpoint resolve_all (resolve : string -> Result DepRecord) (l : list string)
  : Result Snapshot :=
  match l with
  | [] => Ok ∅
  | dep :: rest =>
      rbind (resolve dep) (fun r =>
      rbind (resolve_all resolve rest) (fun m => Ok (<[dep := r]> m)))
  end.

(** Modelled from the spec: DepInfo.loadTmpDeps, the finalize operation:
    every pending specifier is fingerprinted by the version resolver (a
    failure of the resolver propagates), the result becomes the finalized
    set and is compared with the persisted Snapshot. *)
Definition loadTmpDeps (resolve : string -> Result DepRecord) (d : DepInfo)
  : Result (bool * DepInfo) :=
  rbind (resolve_all resolve (elements (pending d))) (fun new =>
    Ok (shouldBuild (persisted d) new,
        {| data_deps := new; pending := pending d; persisted := persisted d |})).

(** Modelled from the spec: DepInfo.writeCache overwrites the persisted
    Snapshot with the finalized dependency set. *)
Definition writeCache (d : DepInfo) : DepInfo :=
  {| data_deps := data_deps d; pending := pending d; persisted := data_deps d |}.

(** Modelled from the spec: DepInfo.loadCache; a missing or corrupt
    cache file ([None]) is an empty Snapshot. *)
Definition loadCache (disk : option Snapshot) : DepInfo :=
  {| data_deps := ∅; pending := ∅; persisted := default ∅ disk |}.

End Tracker.

(** ** The plugin's closure state and its effects *)

Inductive Event : Type :=
| EvBuild (deps : Snapshot) (alias : gmap string string)
| EvWriteCache (snapshot : Snapshot)
| EvSockWrite
| EvCopy (src dst : string).

(** a directory as the map from the names of its files to their content *)
Abbreviation Directory := (gmap string string).

Record World : Type := {
  mode : TMode;
  webpackAlias : gmap string string;
  webpackExternals : gmap string string;
  publicPath : string;
  depInfo : Tracker.DepInfo;
  tmpDir : string;
  dirs : gmap string Directory;
  trace : list Event
}.

Definition set_depInfo (d : Tracker.DepInfo) (w : World) : World :=
  {| mode := mode w; webpackAlias := webpackAlias w;
     webpackExternals := webpackExternals w; publicPath := publicPath w;
     depInfo := d; tmpDir := tmpDir w; dirs := dirs w; trace := trace w |}.

Definition set_dirs (ds : gmap string Directory) (w : World) : World :=
  {| mode := mode w; webpackAlias := webpackAlias w;
     webpackExternals := webpackExternals w; publicPath := publicPath w;
     depInfo := depInfo w; tmpDir := tmpDir w; dirs := ds; trace := trace w |}.

(** events are recorded oldest first *)
Definition log (e : Event) (w : World) : World :=
  {| mode := mode w; webpackAlias := webpackAlias w;
     webpackExternals := webpackExternals w; publicPath := publicPath w;
     depInfo := depInfo w; tmpDir := tmpDir w; dirs := dirs w;
     trace := trace w ++ [e] |}.

(** the outcome of an action on the closure state: normal completion or
    an exception, each with the state reached *)
Inductive Outcome (A : Type) : Type :=
| Done (a : A) (w : World)
| Thrown (msg : string) (w : World).
Arguments Done {A} a w.
Arguments Thrown {A} msg w.

Definition M (A : Type) : Type := World -> Outcome A.

Definition ret {A} (a : A) : M A := fun w => Done a w.

Definition bind {A B} (m : M A) (k : A -> M B) : M B :=
  fun w => match m w with
           | Done a w' => k a w'
           | Thrown msg w' => Thrown msg w'
           end.

Definition throw {A} (msg : string) : M A := fun w => Thrown msg w.
Definition get : M World := fun w => Done w w.
Definition modify (f : World -> World) : M unit := fun w => Done tt (f w).

Definition lift {A} (r : Result A) : M A :=
  match r with
  | Ok a => ret a
  | Throw msg => throw msg
  end.

Declare Scope plugin_scope.
Delimit Scope plugin_scope with plugin.
Notation "x <- m ;; k" := (bind m (fun x => k))
  (at level 100, m at next level, right associativity) : plugin_scope.
Notation "m ;; k" := (bind m (fun _ => k))
  (at level 100, right associativity) : plugin_scope.

Definition state_of {A} (o : Outcome A) : World :=
  match o with
  | Done _ w => w
  | Thrown _ w => w
  end.

Definition is_thrown {A} (o : Outcome A) : bool :=
  match o with
  | Done _ _ => false
  | Thrown _ _ => true
  end.

(** ** Build orchestrator (DepBuilder) and the copy helper *)

(** what the external bundling engine reports to its callback *)
Inductive Completion : Type :=
| EngineError (err : string)
| EngineStats (hasErrors : bool).

(** one run of the external engine: its report and the files it emits *)
Record EngineRun : Type := {
  completion : Completion;
  emitted : Directory
}.

Definition succeeded (c : Completion) : bool :=
  match c with
  | EngineError _ => false
  | EngineStats hasErrors => negb hasErrors
  end.

Module Builder.

(** Modelled from the spec: DepBuilder.build (DepBuilder.ts is not among
    the sources; section 4.3): the engine is invoked once on the
    finalized dependency list, on success the output directory holds the
    emitted artifact, on failure it is left untouched; the result is
    reported through the completion notification and nothing is thrown
    past the builder. *)
Definition build (deps : Snapshot) (alias : gmap string string)
           (run : EngineRun) (onBuildComplete : Completion -> M unit) : M unit :=
  (modify (log (EvBuild deps alias)) ;;
   w <- get ;;
   (if succeeded (completion run)
    then modify (set_dirs (<[tmpDir w := emitted run]> (dirs w)))
    else ret tt) ;;
   onBuildComplete (completion run))%plugin.

(** Modelled from the spec: utils.copy (utils.ts is not among the
    sources): every file of the source directory is written into the
    destination, over any file of that name there. *)
Definition copy (src dst : string) : M unit :=
  (w <- get ;;
   modify (log (EvCopy src dst)) ;;
   modify (set_dirs
             (<[dst := default ∅ (dirs w !! src) ∪ default ∅ (dirs w !! dst)]>
                (dirs w))))%plugin.

End Builder.

(** ** The plugin (the default export of mfsu.ts) *)

(** command-line arguments: [args._], [args.force], [args.mode] *)
Record Args : Type := {
  positional : list string;
  arg_force : bool;
  arg_mode : option string
}.

(** constants of ./constants, which is not among the sources *)
Record Constants : Type := {
  DEFAULT_MF_NAME : string;
  MF_VA_PREFIX : string
}.

Inductive BundlerConfigType : Type :=
| csr
| ssr.

Inductive WebpackPlugin : Type :=
| ModuleFederationPlugin (name : string) (remote_name remote_value : string)
| OtherPlugin (name : string).

(** the part of the bundler configuration that [modifyBundleConfig] touches *)
Record BundleConfig : Type := {
  resolve_alias : option (gmap string string);
  externals : JsValue;
  output_publicPath : string;
  plugins : list WebpackPlugin;
  topLevelAwait : bool
}.

Module Plugin.

Definition parse_mode (s : string) : option TMode :=
  if bool_decide (s = "development") then Some development
  else if bool_decide (s = "production") then Some production
  else None.

(** the mode name chosen by [api.onStart]; [current] is the closure
    variable's value before the call *)
Definition start_mode (current : TMode) (name : string) (args : Args) : string :=
  if bool_decide (name = "build") then "production"
  else if bool_decide (name = "mfsu")
          && bool_decide (positional args !! 1 = Some "build")
  then match truthy_str (arg_mode args) with
       | Some m => m
       | None => mode_name current
       end
  else mode_name current.

(** [api.onStart]; [disk] is the content of the cache file, if it can
    be read. The assertion on the mode follows the assignment: when it
    fails, the closure variable holds the refused name, which [TMode]
    has no value for; the state of that [Thrown] outcome is the state
    before the call, and its mode is not to be read. *)
Definition onStart (api : Api) (disk : option Snapshot)
           (name : string) (args : Args) : M unit :=
  (lift (checkConfig api) ;;
   w <- get ;;
   let chosen := start_mode (mode w) name args in
   match parse_mode chosen with
   | None =>
       throw ("[MFSU] Unsupported mode " +:+ chosen
              +:+ ", expect development or production.")
   | Some m =>
       let dir := getMfsuPath api m in
       modify (fun w =>
         {| mode := m; webpackAlias := webpackAlias w;
            webpackExternals := webpackExternals w;
            publicPath := publicPath w;
            depInfo := Tracker.loadCache disk;
            tmpDir := dir;
            dirs := match dirs w !! dir with
                    | Some _ => dirs w
                    | None => <[dir := ∅]> (dirs w)
                    end;
            trace := trace w |})
   end)%plugin.

(** the [modifyBundleConfig] hook *)
Definition modifyBundleConfig (k : Constants) (api : Api) (memo : BundleConfig)
           (type : BundlerConfigType) (mfsu_flag : bool) : M BundleConfig :=
  match type with
  | ssr => ret memo
  | csr =>
      (modify (fun w =>
         {| mode := mode w;
            webpackAlias :=
              object_assign (webpackAlias w) (default ∅ (resolve_alias memo));
            webpackExternals := webpackExternals w;
            publicPath := publicPath w; depInfo := depInfo w;
            tmpDir := tmpDir w; dirs := dirs w; trace := trace w |}) ;;
       lift (assert
               (bool_decide (typeof (or_empty_object (externals memo)) = "object"))
               ("[MFSU] Unsupported externals config format, only support object, but got "
                +:+ to_display (externals memo))) ;;
       modify (fun w =>
         {| mode := mode w; webpackAlias := webpackAlias w;
            webpackExternals :=
              object_assign (webpackExternals w)
                            (own_props (or_empty_object (externals memo)));
            publicPath := output_publicPath memo; depInfo := depInfo w;
            tmpDir := tmpDir w; dirs := dirs w; trace := trace w |}) ;;
       let mf := default (DEFAULT_MF_NAME k)
                   (truthy_str (mc ← mfsu (config api); mfName mc)) in
       ret {| resolve_alias := resolve_alias memo;
              externals := externals memo;
              output_publicPath := output_publicPath memo;
              plugins :=
                (if mfsu_flag then plugins memo
                 else plugins memo ++
                      [ModuleFederationPlugin "umi-app" mf
                         (mf +:+ "@" +:+ MF_VA_PREFIX k +:+ "remoteEntry.js")]);
              topLevelAwait := true |})%plugin
  end.

(** the [onBuildComplete] callback that [buildDeps] hands to the builder *)
Definition onBuildComplete (c : Completion) : M unit :=
  match c with
  | EngineError _ => ret tt
  | EngineStats true => ret tt
  | EngineStats false =>
      (w <- get ;;
       modify (log (EvWriteCache (Tracker.data_deps (depInfo w)))) ;;
       modify (set_depInfo (Tracker.writeCache (depInfo w))) ;;
       if bool_decide (mode w = development)
       then modify (log EvSockWrite)
       else ret tt)%plugin
  end.

(** [buildDeps]; [resolve] is the version resolver used by the tracker
    and [run] the run of the external engine, should it be invoked *)
Definition buildDeps (api : Api) (resolve : string -> Result DepRecord)
           (run : EngineRun) (force : bool) : M unit :=
  (w <- get ;;
   res <- lift (Tracker.loadTmpDeps resolve (depInfo w)) ;;
   modify (set_depInfo res.2) ;;
   (if force || res.1
    then Builder.build (Tracker.data_deps res.2) (webpackAlias w) run onBuildComplete
    else ret tt) ;;
   w' <- get ;;
   if bool_decide (mode w' = production)
   then Builder.copy (tmpDir w')
          (Path.join [cwd api; default "./dist" (truthy_str (outputPath (userConfig api)))])
   else ret tt)%plugin.

(** [api.onBuildComplete] *)
Definition api_onBuildComplete (api : Api) (resolve : string -> Result DepRecord)
           (run : EngineRun) (err : bool) : M unit :=
  if err then ret tt else buildDeps api resolve run false.

(** [api.onDevCompileDone] *)
Definition onDevCompileDone (api : Api) (resolve : string -> Result DepRecord)
           (run : EngineRun) : M unit :=
  buildDeps api resolve run false.

(** the [mfsu] command *)
Definition mfsu_command (api : Api) (resolve : string -> Result DepRecord)
           (run : EngineRun) (args : Args) : M unit :=
  match positional args !! 0 with
  | Some sub =>
      if bool_decide (sub = "build")
      then buildDeps api resolve run (arg_force args)
      else throw ("[MFSU] Unsupported subcommand " +:+ sub +:+ " for mfsu.")
  | None => throw "[MFSU] Unsupported subcommand undefined for mfsu."
  end.

End Plugin.

(** ** The request middleware *)

Record Request : Type := {
  req_path : string;
  req_url : string
}.

(** a file holds bytes *)
Inductive FsNode : Type :=
| File (content : string)
| Dir.

(** what a call of the middleware ends in: [next()], [res.send] of a
    text with the headers set, or an exception: the SyntaxError of
    [new RegExp] on a malformed pattern, the error of [readFileSync] on
    a directory *)
Inductive Response : Type :=
| Next
| Sent (headers : list (string * string)) (body : string)
| PatternFailed
| ReadFailed.

(** the library functions of the JavaScript runtime that the middleware
    calls. [RegExp source] is [new RegExp(source)]: [None] when the
    source is malformed and the constructor throws, else the function
    [s => s.replace(re, '/')] of the compiled expression. [mime_lookup]
    is [mime.lookup]. [utf8_text] is the text that a read with the
    encoding ['utf-8'] decodes from the bytes of a file, given as the
    bytes that [res.send] writes for that text. *)
Record Runtime : Type := {
  RegExp : string -> option (string -> string);
  mime_lookup : string -> string;
  utf8_text : string -> string
}.

Module Interceptor.

Definition immutable_header : string * string :=
  ("cache-control", "max-age=31536000,immutable").

(** the function returned by [api.addBeforeMiddlewares]; [files] is the
    file system, [existsSync] being presence in it. The expression is
    built from the public path before the guard is looked at. *)
Definition middleware (rt : Runtime) (api : Api) (w : World)
           (files : gmap string FsNode) (req : Request) : Response :=
  let path := req_path req in
  match RegExp rt ("^" +:+ publicPath w) with
  | None => PatternFailed
  | Some replace =>
      let filePath := Str.slice1 (replace path) in
      let mfsuPath := getMfsuPath api development in
      if negb (bool_decide (is_Some (mfsu (userConfig api))))
         || bool_decide (path = "/")
         || negb (bool_decide (is_Some (files !! Path.join [mfsuPath; filePath])))
      then Next
      else
        match files !! Path.join [mfsuPath; filePath] with
        | Some (File content) =>
            Sent ([("content-type", mime_lookup rt (Path.ext path))]
                  ++ (if negb (Re.test Re.remoteEntry_js (req_url req))
                      then [immutable_header] else []))
                 (utf8_text rt content)
        | Some Dir => ReadFailed
        | None => Next
        end
  end.

End Interceptor.

(** ** Decoding a file as UTF-8 *)

Module Utf8.

(** U+FFFD in UTF-8: EF BF BD *)
Definition replacement : string :=
  String (ascii_of_N 239) (String (ascii_of_N 191) (String (ascii_of_N 189) "")).

(** a sequence of several bytes that has begun: the bytes read, how many
    are still to come, and the bounds of the next one *)
Record Pending : Type := {
  read : string;
  needed : nat;
  lower : N;
  upper : N
}.

(** a byte met outside a sequence: what is written and the sequence it
    starts, if any *)
Definition start (c : ascii) : string * option Pending :=
  let b := N_of_ascii c in
  if (b <=? 127)%N then (String c "", None)
  else if (194 <=? b)%N && (b <=? 223)%N
  then ("", Some {| read := String c ""; needed := 1; lower := 128; upper := 191 |})
  else if (224 <=? b)%N && (b <=? 239)%N
  then ("", Some {| read := String c ""; needed := 2;
                    lower := if (b =? 224)%N then 160%N else 128%N;
                    upper := if (b =? 237)%N then 159%N else 191%N |})
  else if (240 <=? b)%N && (b <=? 244)%N
  then ("", Some {| read := String c ""; needed := 3;
                    lower := if (b =? 240)%N then 144%N else 128%N;
                    upper := if (b =? 244)%N then 143%N else 191%N |})
  else (replacement, None).

(** the decoder of the Encoding Standard, which Node applies to a
    buffer read as ['utf-8'], its output written in UTF-8 again: a
    well-formed sequence stays as it is; an ill-formed part gives one
    U+FFFD, and the byte that broke a sequence is looked at again *)
Fixpoint decode (st : option Pending) (s : string) : string :=
  match s with
  | EmptyString =>
      match st with
      | Some _ => replacement
      | None => ""
      end
  | String c r =>
      match st with
      | None => (start c).1 +:+ decode (start c).2 r
      | Some p =>
          if (lower p <=? N_of_ascii c)%N && (N_of_ascii c <=? upper p)%N
          then match needed p with
               | S (S n) =>
                   decode (Some {| read := read p +:+ String c ""; needed := S n;
                                   lower := 128; upper := 191 |}) r
               | _ => (read p +:+ String c "") +:+ decode None r
               end
          else replacement +:+ (start c).1 +:+ decode (start c).2 r
      end
  end.

Definition text (bytes : string) : string := decode None bytes.

End Utf8.

(** ** Version resolver (getDepVersion) *)

Module Resolver.

(** a specifier after parsing: an absolute path or an install-tree name,
    each as its list of path segments *)
Inductive Specifier : Type :=
| Abs (segs : list string)
| Bare (segs : list string).

#[global] Instance Specifier_eq_dec : EqDecision Specifier.
Proof. solve_decision. Defined.

Definition segments (s : string) : list string :=
  filter (fun a => Str.is_empty a = false) (Str.split Str.slash s).

Definition parse (s : string) : Specifier :=
  if Str.starts_with_slash s then Abs (segments s) else Bare (segments s).

Definition show_path (segs : list string) : string :=
  "/" +:+ Str.join "/" segs.

(** the installed tree: the directories that hold a package manifest,
    with the version the manifest declares *)
Abbreviation Manifests := (gmap (list string) string).

Inductive Resolution : Type :=
| Resolved (r : DepRecord)
| UnresolvedDependency
| AliasLoop.

(** Modelled from the spec: the package root of an install-tree
    specifier (section 4.1, step 3): a scoped [@scope/name] is one unit;
    the rest is the sub-path. *)
Definition package_root (segs : list string) : list string * list string :=
  match segs with
  | scope :: name :: rest =>
      if Str.starts_with "@" scope then ([scope; name], rest)
      else ([scope], name :: rest)
  | _ => (segs, [])
  end.

(** Modelled from the spec: the nearest ancestor manifest of an absolute
    location, found by walking upward from it to the root (section 3 and
    4.1, step 4). [rdir] is the location's segments, innermost first. *)
Fixpoint manifest_up (m : Manifests) (rdir : list string)
  : option (list string * string) :=
  match m !! rev rdir with
  | Some v => Some (rev rdir, v)
  | None =>
      match rdir with
      | [] => None
      | _ :: parent => manifest_up m parent
      end
  end.

(** Modelled from the spec: the install-tree lookup (section 4.1, step
    4): probe the install directory of the directory for the package
    root, else ascend to the parent, up to the root. [rdir] is the
    starting directory, innermost segment first. *)
Fixpoint install_up (m : Manifests) (root : list string) (rdir : list string)
  : option (list string * string) :=
  match m !! (rev rdir ++ "node_modules" :: root) with
  | Some v => Some (rev rdir ++ "node_modules" :: root, v)
  | None =>
      match rdir with
      | [] => None
      | _ :: parent => install_up m root parent
      end
  end.

(** Modelled from the spec: the alias entry for a specifier: the
    specifier itself or its longest prefix of whole segments that is a
    key of the table (section 4.1, step 2); [n] counts the segments of
    the prefix tried. The entry's value comes with the remaining
    sub-path. *)
Fixpoint alias_entry (aliases : gmap string string) (segs : list string) (n : nat)
  : option (string * list string) :=
  match n with
  | 0 => None
  | S n' =>
      match aliases !! Str.join "/" (take n segs) with
      | Some v => Some (v, drop n segs)
      | None => alias_entry aliases segs n'
      end
  end.

(** Modelled from the spec: one redirection through the alias table
    (section 4.1, steps 1 and 2): an absolute path is never redirected;
    an absolute value is substituted, the sub-path kept; a value that is
    a specifier replaces the specifier. *)
Definition alias_step (aliases : gmap string string) (s : Specifier)
  : option Specifier :=
  match s with
  | Abs _ => None
  | Bare segs =>
      match alias_entry aliases segs (length segs) with
      | Some (v, remainder) =>
          Some (match parse v with
                | Abs p => Abs (p ++ remainder)
                | Bare q => Bare q
                end)
      | None => None
      end
  end.

(** Modelled from the spec: steps 3 to 5 for a specifier that the alias
    table does not redirect. *)
Definition locate (m : Manifests) (cwd : list string) (s : Specifier) : Resolution :=
  match s with
  | Abs p =>
      match manifest_up m (rev p) with
      | Some (_, v) => Resolved {| version := v; file := show_path p |}
      | None => UnresolvedDependency
      end
  | Bare segs =>
      let (root, sub) := package_root segs in
      match install_up m root (rev cwd) with
      | Some (dir, v) => Resolved {| version := v; file := show_path (dir ++ sub) |}
      | None => UnresolvedDependency
      end
  end.

(** Modelled from the spec: the resolve algorithm of section 4.1
    (getDepVersion.ts is not among the sources, only its tests are). The
    restart on a redirected specifier is bounded by [fuel]; a table
    whose chain does not end within it is reported as [AliasLoop]. *)
Fixpoint resolve (fuel : nat) (aliases : gmap string string) (m : Manifests)
         (cwd : list string) (s : Specifier) : Resolution :=
  match fuel with
  | 0 => AliasLoop
  | S fuel' =>
      match alias_step aliases s with
      | Some s' => resolve fuel' aliases m cwd s'
      | None => locate m cwd s
      end
  end.

(** [getDepVersion({ dep, cwd, webpackAlias })]: a chain that ends uses
    each key of the table at most once *)
Definition getDepVersion (aliases : gmap string string) (m : Manifests)
           (cwd dep : string) : Resolution :=
  resolve (S (size aliases)) aliases m (segments cwd) (parse dep).

Definition version_of (r : Resolution) : option string :=
  match r with
  | Resolved d => Some (version d)
  | _ => None
  end.

(** the resolver as the tracker calls it *)
Definition as_result (dep : string) (r : Resolution) : Result DepRecord :=
  match r with
  | Resolved d => Ok d
  | UnresolvedDependency => Throw ("[MFSU] package.json not found for " +:+ dep)
  | AliasLoop => Throw ("[MFSU] alias chain does not end for " +:+ dep)
  end.

(** *** Specifiers and locations by their segments *)

Fixpoint slash_free (s : string) : bool :=
  match s with
  | EmptyString => true
  | String c r => negb (bool_decide (c = Str.slash)) && slash_free r
  end.

(** a path segment: not empty and without a slash *)
Definition segment (s : string) : bool :=
  negb (Str.is_empty s) && slash_free s.

(** the package root name of an install-tree specifier: a name, or a
    scope [@scope] with a name *)
Inductive package_root_name : list string → Prop :=
| root_plain name :
    Str.starts_with "@" name = false → package_root_name [name]
| root_scoped scope name :
    Str.starts_with "@" scope = true → package_root_name [scope; name].

(** neither the specifier nor a prefix of whole segments of it is a key
    of the alias table *)
Definition unaliased (aliases : gmap string string) (segs : list string) : Prop :=
  ∀ j, 0 < j ≤ length segs → aliases !! Str.join "/" (take j segs) = None.

(** [key] is the longest prefix of whole segments of the specifier
    [key ++ remainder] that is a key of the alias table, and [v] its
    value *)
Definition longest_alias (aliases : gmap string string)
           (key remainder : list string) (v : string) : Prop :=
  key ≠ []
  ∧ aliases !! Str.join "/" key = Some v
  ∧ ∀ j, length key < j ≤ length (key ++ remainder) →
         aliases !! Str.join "/" (take j (key ++ remainder)) = None.

(** [d] is the directory nearest above the location [p] (or [p] itself)
    that holds a manifest, and [v] the version it declares *)
Definition nearest_manifest (m : Manifests) (p d : list string) (v : string) : Prop :=
  d `prefix_of` p ∧ m !! d = Some v
  ∧ ∀ a, a `prefix_of` p → d `prefix_of` a → a ≠ d → m !! a = None.

(** [a] is the directory nearest above [cwd] (or [cwd] itself) whose
    install directory holds the package [root], and [v] the version of
    its manifest *)
Definition nearest_install (m : Manifests) (cwd root a : list string) (v : string)
  : Prop :=
  a `prefix_of` cwd ∧ m !! (a ++ "node_modules" :: root) = Some v
  ∧ ∀ a', a' `prefix_of` cwd → a `prefix_of` a' → a' ≠ a →
          m !! (a' ++ "node_modules" :: root) = None.

End Resolver.

(** ** Observations on traces *)

(** the events recorded between two states of one run *)
Definition events_since (w w' : World) : list Event :=
  drop (length (trace w)) (trace w').

Definition is_build (e : Event) : bool :=
  match e with EvBuild _ _ => true | _ => false end.

Definition is_writeCache (e : Event) : bool :=
  match e with EvWriteCache _ => true | _ => false end.

Definition is_copy (e : Event) : bool :=
  match e with EvCopy _ _ => true | _ => false end.

Definition build_invoked (evs : list Event) : bool := existsb is_build evs.
Definition cache_written (evs : list Event) : bool := existsb is_writeCache evs.
Definition copied (evs : list Event) : bool := existsb is_copy evs.

(** the distribution directory of [buildDeps] *)
Definition distDir (api : Api) : string :=
  Path.join [cwd api; default "./dist" (truthy_str (outputPath (userConfig api)))].

(** the files of a directory of the store, none when it does not exist *)
Definition files_of (w : World) (dir : string) : Directory :=
  default ∅ (dirs w !! dir).

(** ** Messages of the configuration checks *)

Definition output_message (m : TMode) : string :=
  "[MFSU] mfsu." +:+ mode_name m +:+ ".output must match /.mfsu/.".

Definition externals_message (v : JsValue) : string :=
  "[MFSU] Unsupported externals config format, only support object, but got "
  +:+ to_display v.

(** ** The remaining hooks of the plugin *)

(** what [onTransformDeps] receives *)
Record TransformDep : Type := {
  td_file : string;
  td_source : string;
  td_isMatch : bool
}.

(** a line written by [console.log]: the colour given to the source, the
    source, the shortened file and the label *)
Record LogLine : Type := {
  log_colour : string;
  log_source : string;
  log_file : string;
  log_label : string
}.

(** the options of a preset, [preset[1]]: the object under its key
    [env], when it has one, and its other keys *)
Record PresetOptions : Type := {
  preset_env : option (gmap string JsValue);
  preset_others : gmap string JsValue
}.

(** an entry of [opts.presets]: a bare name, or an array of a name and,
    when given, its options *)
Inductive BabelPreset : Type :=
| PresetName (name : string)
| PresetEntry (name : string) (options : option PresetOptions).

Definition preset_name (p : BabelPreset) : string :=
  match p with
  | PresetName name => name
  | PresetEntry name _ => name
  end.

Inductive BabelPlugin : Type :=
| BabelImportRedirectPlugin (umi dumi bigfish : string)
| OtherBabelPlugin (name : string).

Record BabelOpts : Type := {
  babel_presets : option (list BabelPreset);
  babel_plugins : option (list BabelPlugin)
}.

Module Hooks.

(** [s] without the literal prefix [p], when it has it *)
Fixpoint drop_prefix (p s : string) : option string :=
  match p, s with
  | EmptyString, _ => Some s
  | String a p', String b s' => if bool_decide (a = b) then drop_prefix p' s' else None
  | String _ _, EmptyString => None
  end.

(** [s.replace(pat, by)] for a string pattern: the first occurrence *)
Fixpoint replace_first (pat by_ s : string) : string :=
  match drop_prefix pat s with
  | Some rest => by_ +:+ rest
  | None =>
      match s with
      | EmptyString => EmptyString
      | String c r => String c (replace_first pat by_ r)
      end
  end.

(** the function given to [api.modifyConfig]; the configuration is the
    object it is, from key to value *)
Definition modifyConfig (memo : gmap string JsValue) : gmap string JsValue :=
  <["chunks" := JArray ["umi"]]>
    (<["dynamicImport" :=
         or_empty_object (default JUndefined (memo !! "dynamicImport"))]> memo).

(** [enableBy] of [api.describe], as the truth value of what it returns;
    [env] is [api.env] and [ENABLE_MFSU] the environment variable *)
Definition enableBy (env : string) (api : Api) (ENABLE_MFSU : option string) : bool :=
  (bool_decide (env = "development") && bool_decide (is_Some (mfsu (userConfig api))))
  || (bool_decide (env = "production")
      && bool_decide (is_Some (mc ← mfsu (userConfig api); mfsu_production mc)))
  || bool_decide (is_Some (truthy_str ENABLE_MFSU)).

(** the line [onTransformDeps] prints under MFSU_DEBUG *)
Definition debug_line (file : string) (opts : TransformDep) : LogLine :=
  {| log_colour := if td_isMatch opts then "green" else "red";
     log_source := td_source opts;
     log_file := file;
     log_label := if td_isMatch opts then "MATCHED" else "UNMATCHED" |}.

(** collecting a matched import, [depInfo.addTmpDep(opts.source)]. The
    method belongs to DepInfo.ts, which is not among the sources: it is
    a parameter here, giving the tracker's next state or throwing *)
Definition collect (addTmpDep : string -> Tracker.DepInfo -> Result Tracker.DepInfo)
           (opts : TransformDep) : M unit :=
  if td_isMatch opts
  then (w <- get ;;
        d <- lift (addTmpDep (td_source opts) (depInfo w)) ;;
        modify (set_depInfo d))%plugin
  else ret tt.

(** [onTransformDeps]: [MFSU_DEBUG] is the environment variable,
    [absSrcPath] is [api.paths.absSrcPath]; the result is what
    [console.log] has printed, and how the call ends *)
Definition onTransformDeps
           (addTmpDep : string -> Tracker.DepInfo -> Result Tracker.DepInfo)
           (MFSU_DEBUG : option string) (absSrcPath : string)
           (opts : TransformDep) (w : World) : list LogLine * Outcome unit :=
  let file := replace_first (absSrcPath +:+ "/") "@/" (td_file opts) in
  match truthy_str MFSU_DEBUG with
  | Some dbg =>
      if negb (Str.starts_with "." (td_source opts))
      then
        if bool_decide (dbg = "MATCHED") && negb (td_isMatch opts)
        then ([], Done tt w)
        else if bool_decide (dbg = "UNMATCHED") && td_isMatch opts
        then ([], Done tt w)
        else ([debug_line file opts], collect addTmpDep opts w)
      else ([], collect addTmpDep opts w)
  | None => ([], collect addTmpDep opts w)
  end.

(** [/babel-preset-umi/] *)
Definition babel_preset_umi : list Re.atom := Re.literal "babel-preset-umi".

(** the body of [opts.presets.forEach]: an array entry named like the umi
    preset gets [env.useBuiltIns = false], the other keys of [env] and of
    the options staying; without options or without [env] the assignment
    is a TypeError *)
Definition lower_preset (p : BabelPreset) : Result BabelPreset :=
  match p with
  | PresetName _ => Ok p
  | PresetEntry name options =>
      if Re.test babel_preset_umi name
      then match options with
           | Some o =>
               match preset_env o with
               | Some e =>
                   Ok (PresetEntry name
                         (Some {| preset_env := Some (<["useBuiltIns" := JBool false]> e);
                                  preset_others := preset_others o |}))
               | None =>
                   Throw "TypeError: Cannot set properties of undefined (setting 'useBuiltIns')"
               end
           | None =>
               Throw "TypeError: Cannot read properties of undefined (reading 'env')"
           end
      else Ok p
  end.

Fixpoint lower_presets (l : list BabelPreset) : Result (list BabelPreset) :=
  match l with
  | [] => Ok []
  | p :: rest =>
      rbind (lower_preset p) (fun p' =>
      rbind (lower_presets rest) (fun rest' => Ok (p' :: rest')))
  end.

(** [webpackAlias[key] = value] *)
Definition set_alias (key value : string) (w : World) : World :=
  {| mode := mode w; webpackAlias := <[key := value]> (webpackAlias w);
     webpackExternals := webpackExternals w; publicPath := publicPath w;
     depInfo := depInfo w; tmpDir := tmpDir w; dirs := dirs w;
     trace := trace w |}.

(** the function given to [api.modifyBabelOpts]. [core_js] is what
    [dirname(require.resolve('core-js/package.json'))] evaluates to,
    [regenerator] what [require.resolve('regenerator-runtime/runtime')]
    does, and [umiRedirect] what awaiting
    [getUmiRedirect(process.env.UMI_DIR)] gives: each a value or an
    exception *)
Definition modifyBabelOpts (core_js regenerator umiRedirect : Result string)
           (opts : BabelOpts) : M BabelOpts :=
  (c <- lift core_js ;;
   modify (set_alias "core-js" c) ;;
   r <- lift regenerator ;;
   modify (set_alias "regenerator-runtime/runtime" r) ;;
   u <- lift umiRedirect ;;
   presets' <- lift (match babel_presets opts with
                     | Some l => rbind (lower_presets l) (fun l' => Ok (Some l'))
                     | None => Ok None
                     end) ;;
   match babel_plugins opts with
   | Some l =>
       ret {| babel_presets := presets';
              babel_plugins := Some (BabelImportRedirectPlugin u u u :: l) |}
   | None => throw "TypeError: opts.plugins is not iterable"
   end)%plugin.

End Hooks.

(** ** Sample inputs *)

Module Samples.

Definition mfsu_defaults : MfsuConfig :=
  {| mfsu_development := None; mfsu_production := None; mfName := None |}.

(** a project at /proj with [mfsu: {}] *)
Definition api0 : Api :=
  {| cwd := "/proj"; absTmpPath := "/proj/src/.umi";
     userConfig := {| mfsu := Some mfsu_defaults; outputPath := None |};
     config := {| mfsu := Some mfsu_defaults; outputPath := None |} |}.

Definition lodash_4_17 : DepRecord :=
  {| version := "4.17.0"; file := "/proj/node_modules/lodash" |}.
Definition react_17 : DepRecord :=
  {| version := "17.0.0"; file := "/proj/node_modules/react" |}.

Definition snapshotA : Snapshot :=
  {[ "lodash" := lodash_4_17; "react" := react_17 ]}.

Definition manifests0 : Resolver.Manifests :=
  {[ ["proj"] := "1.0.0";
     ["proj"; "node_modules"; "lodash"] := "4.17.0";
     ["proj"; "node_modules"; "react"] := "17.0.0";
     ["proj"; "node_modules"; "@babel"; "core"] := "7.1.0";
     ["proj"; "vendor"; "lib"] := "2.0.0" ]}.

Definition resolve0 (dep : string) : Result DepRecord :=
  Resolver.as_result dep (Resolver.getDepVersion ∅ manifests0 "/proj" dep).

(** the closure state after [onStart] of the given mode, cache file absent *)
Definition world0 (m : TMode) : World :=
  {| mode := m; webpackAlias := ∅; webpackExternals := ∅; publicPath := "/";
     depInfo := Tracker.loadCache None;
     tmpDir := getMfsuPath api0 m;
     dirs := {[ getMfsuPath api0 m := ∅ ]};
     trace := [] |}.

Definition engine_ok : EngineRun :=
  {| completion := EngineStats false;
     emitted := {[ "remoteEntry.js" := "entry" ]} |}.

Definition engine_failed : EngineRun :=
  {| completion := EngineError "out of memory"; emitted := ∅ |}.

(** both modes configured with the same output directory *)
Definition shared_output : MfsuConfig :=
  {| mfsu_development := Some {| output := Some ".mfsu" |};
     mfsu_production := Some {| output := Some ".mfsu" |};
     mfName := None |}.

Definition api_shared : Api :=
  {| cwd := "/proj"; absTmpPath := "/proj/src/.umi";
     userConfig := {| mfsu := Some shared_output; outputPath := None |};
     config := {| mfsu := Some shared_output; outputPath := None |} |}.

Definition mime0 (ext : string) : string :=
  if bool_decide (ext = ".js") then "application/javascript"
  else "application/octet-stream".

Definition files0 : gmap string FsNode :=
  {[ "/proj/src/.umi/.cache/.mfsu" := Dir;
     "/proj/src/.umi/.cache/.mfsu/remoteEntry.js" := File "entry";
     "/proj/src/.umi/.cache/.mfsu/mf-dep_vendor.js" := File "vendor";
     "/proj/.mfsu" := Dir;
     "/proj/.mfsu/remoteEntry.js" := File "production entry" ]}.

(** the engine on the only expressions that the samples compile: [^]
    followed by ordinary characters, which matches these characters at
    the start of the subject. No other source is given to it. *)
Definition regexp0 (source : string) : option (string → string) :=
  match source with
  | String "^" p =>
      if Re.all_ordinary p
      then Some (Re.replace_prefix (Re.literal p) "/")
      else None
  | _ => None
  end.

Definition node0 : Runtime :=
  {| RegExp := regexp0; mime_lookup := mime0; utf8_text := Utf8.text |}.


(** a file beside the development cache directory, not in it *)
Definition files_outside : gmap string FsNode :=
  {[ "/proj/src/.umi/.cache/.mfsu" := Dir;
     "/proj/src/.umi/.cache/secret.txt" := File "secret" ]}.

(** the closure state of a production-mode process of that project *)
Definition world_shared : World :=
  {| mode := production; webpackAlias := ∅; webpackExternals := ∅;
     publicPath := "/";
     depInfo := Tracker.loadCache None;
     tmpDir := getMfsuPath api_shared production;
     dirs := ∅;
     trace := [] |}.

(** the project of [api0] with its temporary directory elsewhere *)
Definition api0_other_tmp : Api :=
  {| cwd := cwd api0; absTmpPath := "/var/tmp/umi";
     userConfig := userConfig api0; config := config api0 |}.

(** a project that configures the development output only *)
Definition api_dev_output : Api :=
  {| cwd := "/proj"; absTmpPath := "/proj/src/.umi";
     userConfig :=
       {| mfsu := Some {| mfsu_development := Some {| output := Some "cache/.mfsu-dev" |};
                          mfsu_production := None; mfName := None |};
          outputPath := None |};
     config :=
       {| mfsu := Some {| mfsu_development := Some {| output := Some "cache/.mfsu-dev" |};
                          mfsu_production := None; mfName := None |};
          outputPath := None |} |}.

(** an installed tree with a vendored package below an aliased directory *)
Definition manifests_vendor : Resolver.Manifests :=
  {[ ["proj"] := "1.0.0";
     ["proj"; "vendor"; "lib"] := "2.0.0";
     ["proj"; "node_modules"; "vendor"] := "9.9.9";
     ["proj"; "node_modules"; "@babel"; "core"] := "7.1.0" ]}.

Definition aliases_vendor : gmap string string :=
  {[ "vendor" := "/proj/vendor" ]}.

(** a chain of two redirections: [foo] to [bar] to [@babel/core] *)
Definition aliases_chain : gmap string string :=
  {[ "foo" := "bar"; "bar" := "@babel/core" ]}.

(** the installed tree of the resolver's test file: [root] is /repo, the
    test file lies in /repo/packages/preset-built-in/src/plugins/features/mfsu;
    the manifest of @babel/runtime/helpers/esm declares no version *)
Definition manifests_repo : Resolver.Manifests :=
  {[ ["repo"] := "3.5.0";
     ["repo"; "node_modules"; "@babel"; "runtime"] := "7.14.0";
     ["repo"; "node_modules"; "@babel"; "core"] := "7.14.3";
     ["repo"; "node_modules"; "lodash"] := "4.17.21" ]}.

Definition test_dirname : string :=
  "/repo/packages/preset-built-in/src/plugins/features/mfsu".

(** the versions of the scenario of four passes *)
Definition resolve_pass (lodash_version : string) (dep : string) : Result DepRecord :=
  if bool_decide (dep = "lodash")
  then Ok {| version := lodash_version; file := "/proj/node_modules/lodash" |}
  else if bool_decide (dep = "react") then Ok react_17
  else if bool_decide (dep = "axios")
  then Ok {| version := "0.21.1"; file := "/proj/node_modules/axios" |}
  else Throw ("[MFSU] package.json not found for " +:+ dep).

(** one pass of the tracker: the specifiers observed, then finalize; on
    [built] the build succeeds and the cache is written *)
Definition pass (resolve : string -> Result DepRecord) (observed : list string)
           (built : bool) (d : Tracker.DepInfo) : option (bool * Tracker.DepInfo) :=
  match Tracker.loadTmpDeps resolve
          (foldr Tracker.addTmpDep (Tracker.startPass d) observed) with
  | Ok (sb, d') => Some (sb, if built then Tracker.writeCache d' else d')
  | Throw _ => None
  end.

End Samples.

#[global] Arguments Path.join : simpl never.
#[global] Arguments Path.normalize : simpl never.
#[global] Arguments Path.ext : simpl never.
#[global] Arguments Re.test : simpl never.
#[global] Arguments Re.replace_prefix : simpl never.
#[global] Arguments getMfsuPath : simpl never.
#[global] Arguments distDir : simpl never.


(** * Properties *)

(** ** Strings and segments *)

Lemma append_cons c a s : String c a +:+ s = String c (a +:+ s).
Proof. reflexivity. Qed.

Lemma append_assoc a b c : (a +:+ b) +:+ c = a +:+ b +:+ c.
Proof.
  induction a as [|x a IH]; [done|].
  by rewrite !append_cons, IH.
Qed.

Lemma split_go_sep sep b : ∀ a cur,
  Str.split_go sep cur (a +:+ String sep b)
  = Str.split_go sep cur a ++ Str.split_go sep EmptyString b.
Proof.
  induction a as [|c a IH]; intros cur.
  - change ("" +:+ String sep b) with (String sep b). simpl.
    by rewrite bool_decide_eq_true_2.
  - rewrite append_cons. simpl. destruct (bool_decide (c = sep)).
    + by rewrite IH.
    + apply IH.
Qed.

Lemma split_slash a b :
  Str.split Str.slash (a +:+ "/" +:+ b) = Str.split Str.slash a ++ Str.split Str.slash b.
Proof. apply (split_go_sep Str.slash b a EmptyString). Qed.

Lemma join_snoc sep pre y :
  pre ≠ [] → Str.join sep (pre ++ [y]) = Str.join sep pre +:+ sep +:+ y.
Proof.
  induction pre as [|x pre IH]; [done|]. intros _.
  destruct pre as [|x' pre]; [done|].
  change (Str.join sep ((x :: x' :: pre) ++ [y]))
    with (x +:+ sep +:+ Str.join sep ((x' :: pre) ++ [y])).
  rewrite IH by done.
  change (Str.join sep (x :: x' :: pre)) with (x +:+ sep +:+ Str.join sep (x' :: pre)).
  by rewrite !append_assoc.
Qed.

Lemma split_go_slash_free s : ∀ cur,
  Resolver.slash_free s = true →
  Str.split_go Str.slash cur s = [String.rev_app cur s].
Proof.
  induction s as [|c s IH]; intros cur; simpl; [done|].
  intros [Hc Hs]%andb_prop. apply negb_true_iff in Hc. rewrite Hc.
  by rewrite IH.
Qed.

Lemma split_segment s :
  Resolver.segment s = true → Str.split Str.slash s = [s].
Proof.
  intros [_ Hs]%andb_prop. by apply (split_go_slash_free s "").
Qed.

Lemma split_join segs :
  segs ≠ [] → Forall (λ s, Resolver.segment s = true) segs →
  Str.split Str.slash (Str.join "/" segs) = segs.
Proof.
  induction segs as [|x segs IH]; [done|]. intros _ Hall.
  apply Forall_cons in Hall as [Hx Hall].
  destruct segs as [|y segs]; [by apply split_segment|].
  change (Str.join "/" (x :: y :: segs)) with (x +:+ "/" +:+ Str.join "/" (y :: segs)).
  rewrite split_slash, split_segment by done. by rewrite IH.
Qed.

Lemma filter_segments segs :
  Forall (λ s, Resolver.segment s = true) segs →
  filter (λ a, Str.is_empty a = false) segs = segs.
Proof.
  induction 1 as [|x segs Hx _ IH]; [done|].
  apply andb_prop in Hx as [Hx _]. apply negb_true_iff in Hx.
  by rewrite filter_cons_True, IH.
Qed.

Lemma segments_join segs :
  Forall (λ s, Resolver.segment s = true) segs →
  Resolver.segments (Str.join "/" segs) = segs.
Proof.
  intros Hall. unfold Resolver.segments.
  destruct segs as [|x segs]; [done|].
  rewrite split_join by done. by apply filter_segments.
Qed.

Lemma segments_show_path segs :
  Forall (λ s, Resolver.segment s = true) segs →
  Resolver.segments (Resolver.show_path segs) = segs.
Proof.
  intros Hall. unfold Resolver.segments, Resolver.show_path.
  change ("/" +:+ Str.join "/" segs) with ("" +:+ "/" +:+ Str.join "/" segs).
  rewrite split_slash. change (Str.split Str.slash "") with [""].
  rewrite filter_app, filter_cons_False, filter_nil by done.
  by apply (segments_join segs).
Qed.

Lemma join_not_absolute segs :
  Forall (λ s, Resolver.segment s = true) segs →
  Str.starts_with_slash (Str.join "/" segs) = false.
Proof.
  intros Hall. destruct Hall as [|x segs Hx _]; [done|].
  destruct x as [|c x]; [done|].
  apply andb_prop in Hx as [_ Hx]. simpl in Hx.
  apply andb_prop in Hx as [Hc _]. apply negb_true_iff in Hc.
  destruct segs as [|y segs]; [exact Hc|].
  change (Str.join "/" (String c x :: y :: segs))
    with (String c (x +:+ "/" +:+ Str.join "/" (y :: segs))).
  exact Hc.
Qed.

Lemma parse_join segs :
  Forall (λ s, Resolver.segment s = true) segs →
  Resolver.parse (Str.join "/" segs) = Resolver.Bare segs.
Proof.
  intros Hall. unfold Resolver.parse.
  by rewrite join_not_absolute, segments_join.
Qed.

Lemma parse_show_path p :
  Forall (λ s, Resolver.segment s = true) p →
  Resolver.parse (Resolver.show_path p) = Resolver.Abs p.
Proof.
  intros Hall. unfold Resolver.parse.
  rewrite segments_show_path by done. reflexivity.
Qed.

Section Tracker_facts.
Import Tracker.

Lemma version_changed_false_iff (old : Snapshot) k r' :
  version_changed old (k, r') = false ↔
  ∀ r, old !! k = Some r → version r = version r'.
Proof.
  unfold version_changed; simpl. destruct (old !! k) as [r|] eqn:E.
  - rewrite negb_false_iff, bool_decide_eq_true. split.
    + intros H r0 [= <-]. exact H.
    + intros H. by apply H.
  - split; [intros _ r; discriminate | done].
Qed.

Lemma shouldBuild_false_iff (old new : Snapshot) :
  shouldBuild old new = false ↔
  dom old = dom new ∧
  ∀ k r r', old !! k = Some r → new !! k = Some r' → version r = version r'.
Proof.
  unfold shouldBuild. rewrite orb_false_iff, negb_false_iff, bool_decide_eq_true.
  apply and_iff_compat_l. split.
  - intros H k r r' Ho Hn.
    assert (Hin : (k, r') ∈ map_to_list new) by by apply elem_of_map_to_list.
    destruct (version_changed old (k, r')) eqn:E.
    + exfalso. assert (existsb (version_changed old) (map_to_list new) = true) as X.
      { apply existsb_exists. exists (k, r'). split; [by apply list_elem_of_In | done]. }
      congruence.
    + by eapply version_changed_false_iff.
  - intros H. destruct (existsb _ _) eqn:E; [|done].
    apply existsb_exists in E as [[k r'] [Hin Hc]].
    apply list_elem_of_In, elem_of_map_to_list in Hin.
    assert (version_changed old (k, r') = false) as X; [|congruence].
    apply version_changed_false_iff. intros r Hr. by eapply H.
Qed.

End Tracker_facts.

(** ** The dependency build driver *)

Lemma events_since_app (w w' : World) evs :
  trace w' = trace w ++ evs → events_since w w' = evs.
Proof. unfold events_since. intros ->. by rewrite drop_app_length. Qed.

Lemma events_since_refl (w : World) : events_since w w = [].
Proof. apply events_since_app. by rewrite app_nil_r. Qed.

Ltac trace_events :=
  match goal with
  | |- context [events_since ?w ?w'] =>
      first
        [ rewrite (events_since_refl w)
        | rewrite (events_since_app w w' []) by (simpl; by rewrite app_nil_r)
        | erewrite (events_since_app w w');
          [| simpl; rewrite <- ?app_assoc; simpl; reflexivity ] ]
  end.

(** the callback leaves the state as it is unless the engine succeeded *)
Lemma onBuildComplete_failed c w :
  succeeded c = false → Plugin.onBuildComplete c w = Done tt w.
Proof. destruct c as [e|[]]; simpl; [done | done | discriminate]. Qed.

Lemma onBuildComplete_succeeded c w :
  succeeded c = true →
  ∃ w', Plugin.onBuildComplete c w = Done tt w'
        ∧ mode w' = mode w ∧ tmpDir w' = tmpDir w ∧ dirs w' = dirs w
        ∧ Tracker.persisted (depInfo w') = Tracker.data_deps (depInfo w)
        ∧ Tracker.data_deps (depInfo w') = Tracker.data_deps (depInfo w)
        ∧ trace w' = trace w
                     ++ EvWriteCache (Tracker.data_deps (depInfo w))
                     :: (if bool_decide (mode w = development) then [EvSockWrite] else []).
Proof.
  destruct c as [e|[]]; simpl; try discriminate. intros _.
  unfold Plugin.onBuildComplete, bind, get, modify. simpl.
  destruct (bool_decide (mode w = development)); simpl;
    eexists; (split; [reflexivity|]); simpl; rewrite <- ?app_assoc; done.
Qed.

(** C1. Without the force flag, [buildDeps] invokes the external build
    exactly when the tracker's [shouldBuild] is true (and not at all when
    finalizing fails); [shouldBuild] is false exactly when the key sets of
    the persisted Snapshot and of the new resolution are equal and every
    shared specifier has the same version, so it is true as soon as a
    specifier is added or removed or a shared version differs. *)
Theorem C1_build_iff_shouldBuild :
  (∀ api resolve run w,
      build_invoked
        (events_since w (state_of (Plugin.buildDeps api resolve run false w)))
      = match Tracker.loadTmpDeps resolve (depInfo w) with
        | Ok res => res.1
        | Throw _ => false
        end)
  ∧ (∀ resolve d res,
        Tracker.loadTmpDeps resolve d = Ok res →
        res.1 = Tracker.shouldBuild (Tracker.persisted d) (Tracker.data_deps res.2))
  ∧ (∀ old new : Snapshot,
        Tracker.shouldBuild old new = false ↔
        dom old = dom new ∧
        ∀ k r r', old !! k = Some r → new !! k = Some r' → version r = version r').
Proof.
  split; [|split].
  - intros api resolve run w.
    unfold Plugin.buildDeps, bind, get, lift.
    destruct (Tracker.loadTmpDeps resolve (depInfo w)) as [[sb d]|msg]; simpl.
    2: { unfold throw. simpl. trace_events; reflexivity. }
    unfold ret, modify. simpl.
    destruct sb; simpl.
    + unfold Builder.build, bind, get, modify. simpl.
      destruct (succeeded (completion run)) eqn:Hs; simpl.
      * edestruct onBuildComplete_succeeded as (w' & -> & Hm & Ht & Hd & _ & _ & Htr);
          [exact Hs|]. simpl in *.
        rewrite Hm. destruct (bool_decide (mode w = production)); simpl.
        -- unfold Builder.copy, bind, get, modify; simpl.
           erewrite events_since_app; [| simpl; rewrite Htr; simpl;
             rewrite <- ?app_assoc; simpl; reflexivity ].
           reflexivity.
        -- unfold ret; simpl.
           erewrite events_since_app; [| rewrite Htr; simpl;
             rewrite <- ?app_assoc; simpl; reflexivity ].
           reflexivity.
      * unfold ret; simpl. rewrite onBuildComplete_failed by done. simpl.
        destruct (bool_decide (mode w = production)); simpl.
        -- unfold Builder.copy, bind, get, modify; simpl. trace_events; reflexivity.
        -- unfold ret; simpl. trace_events; reflexivity.
    + destruct (bool_decide (mode w = production)); simpl.
      * unfold Builder.copy, bind, get, modify; simpl. trace_events; reflexivity.
      * unfold ret; simpl. trace_events; reflexivity.
  - intros resolve d res. unfold Tracker.loadTmpDeps.
    destruct (Tracker.resolve_all _ _); simpl; [|discriminate].
    by intros [= <-].
  - apply shouldBuild_false_iff.
Qed.

(** what one call of [buildDeps] does, case by case *)
Lemma buildDeps_spec api resolve run force w :
  match Tracker.loadTmpDeps resolve (depInfo w) with
  | Throw msg => Plugin.buildDeps api resolve run force w = Thrown msg w
  | Ok res =>
      let built := force || res.1 in
      let ok := built && succeeded (completion run) in
      let ds := if ok then <[tmpDir w := emitted run]> (dirs w) else dirs w in
      ∃ w', Plugin.buildDeps api resolve run force w = Done tt w'
            ∧ mode w' = mode w ∧ tmpDir w' = tmpDir w
            ∧ trace w' =
                trace w
                ++ (if built
                    then [EvBuild (Tracker.data_deps res.2) (webpackAlias w)] else [])
                ++ (if ok
                    then EvWriteCache (Tracker.data_deps res.2)
                         :: (if bool_decide (mode w = development)
                             then [EvSockWrite] else [])
                    else [])
                ++ (if bool_decide (mode w = production)
                    then [EvCopy (tmpDir w) (distDir api)] else [])
            ∧ Tracker.persisted (depInfo w') =
                (if ok then Tracker.data_deps res.2
                 else Tracker.persisted (depInfo w))
            ∧ dirs w' =
                (if bool_decide (mode w = production)
                 then <[distDir api :=
                          default ∅ (ds !! tmpDir w) ∪ default ∅ (ds !! distDir api)]> ds
                 else ds)
  end.
Proof.
  unfold Plugin.buildDeps, bind, get, lift.
  destruct (Tracker.loadTmpDeps resolve (depInfo w)) as [[sb d]|msg] eqn:Hl; simpl;
    [|done].
  assert (Hp : Tracker.persisted d = Tracker.persisted (depInfo w)).
  { unfold Tracker.loadTmpDeps in Hl.
    destruct (Tracker.resolve_all _ _); simpl in Hl; [|discriminate].
    by injection Hl as _ <-. }
  unfold ret, modify; simpl.
  destruct (force || sb); simpl.
  - unfold Builder.build, bind, get, modify; simpl.
    destruct (succeeded (completion run)) eqn:Hs; simpl.
    + edestruct onBuildComplete_succeeded as (w' & -> & Hm & Ht & Hd & Hpe & _ & Htr);
        [exact Hs|]. simpl in *.
      rewrite ?Hm, ?Ht.
      destruct (bool_decide (mode w = production)); simpl;
        unfold Builder.copy, bind, get, modify, ret; simpl;
        eexists; (split; [reflexivity|]); simpl;
        rewrite ?Hm, ?Ht, ?Hpe, ?Hd, ?Htr; simpl; rewrite <- ?app_assoc; simpl;
        rewrite ?app_nil_r; repeat split; try done.
    + unfold ret; simpl. rewrite onBuildComplete_failed by done. simpl.
      destruct (bool_decide (mode w = production)); simpl;
        unfold Builder.copy, bind, get, modify, ret; simpl;
        eexists; (split; [reflexivity|]); simpl; rewrite <- ?app_assoc; simpl;
        repeat split; try done.
  - destruct (bool_decide (mode w = production)); simpl;
      unfold Builder.copy, bind, get, modify, ret; simpl;
      eexists; (split; [reflexivity|]); simpl; rewrite ?app_nil_r;
      repeat split; try done.
Qed.

(** C2. The completion callback writes the cache exactly when the engine
    reports success (no error, and statistics without errors); on an error
    or on statistics with errors it returns at once, so [writeCache] is not
    called and the state, the persisted Snapshot included, is as before.
    For a whole [buildDeps] call: the cache is written exactly when a build
    was invoked and succeeded, and otherwise the persisted Snapshot is
    unchanged. *)
Theorem C2_cache_written_iff_success :
  (∀ c w,
      cache_written (events_since w (state_of (Plugin.onBuildComplete c w)))
      = succeeded c)
  ∧ (∀ c w, succeeded c = false → Plugin.onBuildComplete c w = Done tt w)
  ∧ (∀ c w,
        succeeded c = true →
        Tracker.persisted (depInfo (state_of (Plugin.onBuildComplete c w)))
        = Tracker.data_deps (depInfo w))
  ∧ (∀ api resolve run force w,
        let w' := state_of (Plugin.buildDeps api resolve run force w) in
        (cache_written (events_since w w') = true ↔
         build_invoked (events_since w w') = true
         ∧ succeeded (completion run) = true)
        ∧ (cache_written (events_since w w') = false →
           Tracker.persisted (depInfo w') = Tracker.persisted (depInfo w))).
Proof.
  split; [|split; [|split]].
  - intros c w. destruct (succeeded c) eqn:Hs.
    + destruct (onBuildComplete_succeeded c w Hs) as (w' & -> & _ & _ & _ & _ & _ & Htr).
      simpl. erewrite events_since_app by exact Htr. reflexivity.
    + rewrite onBuildComplete_failed by done. simpl. trace_events; reflexivity.
  - apply onBuildComplete_failed.
  - intros c w Hs.
    destruct (onBuildComplete_succeeded c w Hs) as (w' & -> & _ & _ & _ & Hpe & _).
    exact Hpe.
  - intros api resolve run force w.
    pose proof (buildDeps_spec api resolve run force w) as H.
    destruct (Tracker.loadTmpDeps resolve (depInfo w)) as [[sb d]|msg]; simpl in *.
    + destruct H as (w' & -> & _ & _ & Htr & Hpe & _). simpl.
      erewrite events_since_app by exact Htr. rewrite Hpe.
      destruct (force || sb), (succeeded (completion run)),
        (bool_decide (mode w = development)), (bool_decide (mode w = production));
        simpl; (split; [split; [intros; try discriminate; by split
                               | intros [? ?]; try discriminate; done]
                       | intros; try discriminate; done]).
    + rewrite H. simpl. rewrite events_since_refl. simpl.
      split; [split; [discriminate | intros [? _]; discriminate] | done].
Qed.

Lemma C1_build_iff_shouldBuild_witness :
  Tracker.shouldBuild Samples.snapshotA Samples.snapshotA = false
  ∧ Tracker.shouldBuild ∅ ∅ = false.
Proof.
  split.
  - apply (proj2 (proj2 C1_build_iff_shouldBuild)).
    split; [reflexivity | intros k r r' H1 H2; congruence].
  - pose proof (proj1 (proj2 C1_build_iff_shouldBuild) Samples.resolve0
                  (Tracker.loadCache None)
                  (false, Tracker.loadCache None)) as H.
    symmetry. apply H. vm_compute. reflexivity.
Defined.

Lemma C2_cache_written_iff_success_witness :
  Plugin.onBuildComplete (EngineError "out of memory") (Samples.world0 development)
  = Done tt (Samples.world0 development).
Proof.
  apply (proj1 (proj2 C2_cache_written_iff_success)). reflexivity.
Defined.

(** ** Copy into the distribution directory *)

Lemma copied_app evs1 evs2 : copied (evs1 ++ evs2) = copied evs1 || copied evs2.
Proof. unfold copied. apply existsb_app. Qed.

(** C4 (as stated, refuted). In production mode with nothing to build
    (empty pending set, empty Snapshot, no force flag), [buildDeps] copies
    the output directory into the distribution directory although no build
    was invoked. *)
Lemma C4_copy_without_successful_build :
  let w' := state_of (Plugin.buildDeps Samples.api0 Samples.resolve0 Samples.engine_ok
                        false (Samples.world0 production)) in
  mode (Samples.world0 production) = production
  ∧ copied (trace w') = true
  ∧ build_invoked (trace w') = false
  ∧ trace w' = [EvCopy "/proj/.mfsu-production" "/proj/dist"].
Proof. vm_compute. repeat split. Qed.

(** C4 (amended). In production mode every [buildDeps] call that returns
    ends by copying the build output directory into the distribution
    directory, [join(cwd, userConfig.outputPath || './dist')], whether or
    not a build was invoked in the call; every file of the output directory
    is then in the distribution directory with the same content, over any
    prior copy. In development mode nothing is copied. *)
Theorem C4_production_copies_output :
  ∀ api resolve run force w w',
    Plugin.buildDeps api resolve run force w = Done tt w' →
    (mode w = production →
     (∃ evs, events_since w w' = evs ++ [EvCopy (tmpDir w) (distDir api)]
             ∧ copied evs = false)
     ∧ (∀ f c, files_of w' (tmpDir w) !! f = Some c →
               files_of w' (distDir api) !! f = Some c))
    ∧ (mode w = development → copied (events_since w w') = false).
Proof.
  intros api resolve run force w w' Hrun.
  pose proof (buildDeps_spec api resolve run force w) as H.
  destruct (Tracker.loadTmpDeps resolve (depInfo w)) as [[sb d]|msg]; simpl in H;
    [|congruence].
  destruct H as (w1 & Heq & _ & _ & Htr & _ & Hd).
  rewrite Hrun in Heq. injection Heq as <-.
  split.
  - intros Hm. rewrite Hm in *. simpl in *. split.
    + exists ((if force || sb
               then [EvBuild (Tracker.data_deps d) (webpackAlias w)] else [])
              ++ (if (force || sb) && succeeded (completion run)
                  then [EvWriteCache (Tracker.data_deps d)] else [])).
      split.
      * apply events_since_app. rewrite Htr, <- app_assoc. reflexivity.
      * destruct (force || sb), (succeeded (completion run)); reflexivity.
    + intros f c. unfold files_of. rewrite Hd.
      set (ds := if (force || sb) && succeeded (completion run)
                 then <[tmpDir w:=emitted run]> (dirs w) else dirs w).
      rewrite lookup_insert_eq. simpl.
      destruct (decide (distDir api = tmpDir w)) as [E|E].
      * rewrite E, lookup_insert_eq. simpl. done.
      * rewrite lookup_insert_ne by done. intros Hf.
        by apply lookup_union_Some_l.
  - intros Hm. rewrite Hm in *. simpl in *.
    erewrite events_since_app by exact Htr.
    destruct (force || sb), (succeeded (completion run)); reflexivity.
Qed.

Lemma C4_production_copies_output_witness :
  files_of (state_of (Plugin.buildDeps Samples.api0 Samples.resolve0 Samples.engine_ok
                        true (Samples.world0 production)))
           "/proj/dist" !! "remoteEntry.js" = Some "entry".
Proof.
  refine (proj2 (proj1 (C4_production_copies_output Samples.api0 Samples.resolve0
            Samples.engine_ok true (Samples.world0 production) _ _) _)
            "remoteEntry.js" "entry" _).
  - vm_compute. reflexivity.
  - reflexivity.
  - vm_compute. reflexivity.
Defined.

(** ** Configuration errors *)

Lemma checkConfig_rejects api m out :
  truthy_str (configured_output (config api) m) = Some out →
  Re.test Re.dot_mfsu out = false →
  ∃ m', checkConfig api = Throw (output_message m').
Proof.
  intros Hc Ht. unfold checkConfig. destruct m.
  - rewrite Hc. unfold assert. rewrite Ht. by exists development.
  - destruct (truthy_str (configured_output (config api) development)) as [o|]; simpl.
    + unfold assert at 1. destruct (Re.test Re.dot_mfsu o); simpl.
      * rewrite Hc. unfold assert. rewrite Ht. by exists production.
      * by exists development.
    + rewrite Hc. unfold assert. rewrite Ht. by exists production.
Qed.

(** C6. A configured (non-empty) [mfsu.development.output] or
    [mfsu.production.output] that does not match [/\.mfsu/] makes
    [onStart] throw, before anything else is done, with the message naming
    the offending option; and a configured (truthy) [externals] whose type
    is not [object] makes the [modifyBundleConfig] hook of the client
    bundle throw with a message that shows the value. *)
Theorem C6_invalid_config_is_fatal :
  (∀ api disk name args w m out,
      truthy_str (configured_output (config api) m) = Some out →
      Re.test Re.dot_mfsu out = false →
      ∃ m', Plugin.onStart api disk name args w = Thrown (output_message m') w)
  ∧ (∀ k api memo flag w,
        truthy (externals memo) = true →
        typeof (externals memo) ≠ "object" →
        ∃ w', Plugin.modifyBundleConfig k api memo csr flag w
              = Thrown (externals_message (externals memo)) w').
Proof.
  split.
  - intros api disk name args w m out Hc Ht.
    destruct (checkConfig_rejects api m out Hc Ht) as [m' Hm'].
    exists m'. unfold Plugin.onStart, bind, lift. by rewrite Hm'.
  - intros k api memo flag w Htr Hty.
    unfold Plugin.modifyBundleConfig, bind, lift, modify, or_empty_object.
    rewrite Htr. rewrite bool_decide_eq_false_2 by done. simpl.
    eexists. reflexivity.
Qed.

Lemma C6_invalid_config_is_fatal_witness :
  (∃ m', Plugin.onStart
           {| cwd := "/proj"; absTmpPath := "/proj/src/.umi";
              userConfig := {| mfsu := None; outputPath := None |};
              config := {| mfsu := Some {| mfsu_development := Some {| output := Some "cache" |};
                                           mfsu_production := None; mfName := None |};
                           outputPath := None |} |}
           None "dev" {| positional := []; arg_force := false; arg_mode := None |}
           (Samples.world0 development)
         = Thrown (output_message m') (Samples.world0 development))
  ∧ (∃ w', Plugin.modifyBundleConfig
             {| DEFAULT_MF_NAME := "mf"; MF_VA_PREFIX := "mf-va_" |} Samples.api0
             {| resolve_alias := None; externals := JString "jquery";
                output_publicPath := "/"; plugins := []; topLevelAwait := false |}
             csr false (Samples.world0 development)
           = Thrown (externals_message (JString "jquery")) w').
Proof.
  split.
  - eapply (proj1 C6_invalid_config_is_fatal) with (m := development) (out := "cache");
      reflexivity.
  - apply (proj2 C6_invalid_config_is_fatal); [reflexivity | discriminate].
Defined.

(** ** The request middleware *)

Lemma middleware_sent rt api w files req headers body :
  Interceptor.middleware rt api w files req = Sent headers body →
  ∃ replace content,
    RegExp rt ("^" +:+ publicPath w) = Some replace
    ∧ is_Some (mfsu (userConfig api)) ∧ req_path req ≠ "/"
    ∧ files !! Path.join [getMfsuPath api development;
                          Str.slice1 (replace (req_path req))]
      = Some (File content)
    ∧ body = utf8_text rt content
    ∧ headers = ("content-type", mime_lookup rt (Path.ext (req_path req)))
                :: (if Re.test Re.remoteEntry_js (req_url req)
                    then [] else [Interceptor.immutable_header]).
Proof.
  unfold Interceptor.middleware.
  destruct (RegExp rt ("^" +:+ publicPath w)) as [replace|]; [|discriminate].
  cbv zeta.
  destruct (bool_decide (is_Some (mfsu (userConfig api)))) eqn:Hon; [|discriminate].
  destruct (bool_decide (req_path req = "/")) eqn:Hroot; [discriminate|].
  apply bool_decide_eq_true in Hon. apply bool_decide_eq_false in Hroot.
  destruct (negb _ || _ || _); [discriminate|].
  destruct (files !! _) as [[content|]|] eqn:Hf; try discriminate.
  intros [= <- <-]. exists replace, content.
  repeat (split; [done|]).
  by destruct (Re.test Re.remoteEntry_js (req_url req)).
Qed.




(** C10 (as stated, refuted). With both modes configured to the same
    output directory, a production-mode process serves [remoteEntry.js]
    out of the production-mode output directory. *)
Lemma C10_production_output_served :
  mode Samples.world_shared = production
  ∧ getMfsuPath Samples.api_shared production = "/proj/.mfsu"
  ∧ Samples.files0 !! Path.join [getMfsuPath Samples.api_shared production;
                                 "remoteEntry.js"]
    = Some (File "production entry")
  ∧ Interceptor.middleware Samples.node0 Samples.api_shared Samples.world_shared
      Samples.files0 {| req_path := "/remoteEntry.js"; req_url := "/remoteEntry.js" |}
    = Sent [("content-type", "application/javascript")] "production entry".
Proof. vm_compute. repeat split. Qed.

(** C10 (amended). Whatever the mode of the process, the middleware
    resolves the requested file against the development-mode directory,
    [getMfsuPath(api, { mode: 'development' })]: its answer does not depend
    on the mode (nor on any closure state but the public path), and what
    it sends is the text of the file at the requested path, the match of
    the public path replaced by [/], joined to that directory.
    Production-mode output is served only where it lies at such a
    path. *)
Theorem C10_interceptor_uses_development_dir :
  ∀ rt api w files req,
    (∀ w2, publicPath w2 = publicPath w →
           Interceptor.middleware rt api w2 files req
           = Interceptor.middleware rt api w files req)
    ∧ (∀ headers body,
          Interceptor.middleware rt api w files req = Sent headers body →
          ∃ replace content,
            RegExp rt ("^" +:+ publicPath w) = Some replace
            ∧ files !! Path.join [getMfsuPath api development;
                                  Str.slice1 (replace (req_path req))]
              = Some (File content)
            ∧ body = utf8_text rt content).
Proof.
  intros rt api w files req. split.
  - intros w2 Hp. unfold Interceptor.middleware. by rewrite Hp.
  - intros headers body Hs.
    apply middleware_sent in Hs as (replace & content & Hre & _ & _ & Hf & Hb & _).
    by exists replace, content.
Qed.

Lemma C10_interceptor_uses_development_dir_witness :
  Interceptor.middleware Samples.node0 Samples.api0 (Samples.world0 production)
    Samples.files0 {| req_path := "/remoteEntry.js"; req_url := "/remoteEntry.js" |}
  = Interceptor.middleware Samples.node0 Samples.api0 (Samples.world0 development)
      Samples.files0 {| req_path := "/remoteEntry.js"; req_url := "/remoteEntry.js" |}
  ∧ ∃ replace content,
      RegExp Samples.node0 ("^" +:+ publicPath (Samples.world0 development))
      = Some replace
      ∧ Samples.files0 !! Path.join [getMfsuPath Samples.api0 development;
                                     Str.slice1 (replace "/remoteEntry.js")]
        = Some (File content)
      ∧ "entry" = utf8_text Samples.node0 content.
Proof.
  split.
  - apply (proj1 (C10_interceptor_uses_development_dir Samples.node0 Samples.api0
                    (Samples.world0 development) Samples.files0
                    {| req_path := "/remoteEntry.js"; req_url := "/remoteEntry.js" |})).
    reflexivity.
  - refine (proj2 (C10_interceptor_uses_development_dir Samples.node0 Samples.api0
                    (Samples.world0 development) Samples.files0
                    {| req_path := "/remoteEntry.js"; req_url := "/remoteEntry.js" |})
                  [("content-type", "application/javascript")] "entry" _).
    vm_compute. reflexivity.
Defined.

(** ** Cache locations *)

(** C9 (as stated, refuted). The default production location is not
    derived from the project's temporary directory: it does not lie under
    it and does not change with it. *)
Lemma C9_production_default_not_from_tmp :
  absTmpPath Samples.api0 = "/proj/src/.umi"
  ∧ getMfsuPath Samples.api0 production = "/proj/.mfsu-production"
  ∧ Str.starts_with (absTmpPath Samples.api0) (getMfsuPath Samples.api0 production)
    = false
  ∧ absTmpPath Samples.api0_other_tmp = "/var/tmp/umi"
  ∧ getMfsuPath Samples.api0_other_tmp production = "/proj/.mfsu-production".
Proof. vm_compute. repeat split. Qed.

(** C9 (amended). Each mode has one location. A configured (non-empty)
    output path is joined with the project's cwd, in both modes. Without
    one, the development location is [.cache/.mfsu] under the project's
    temporary directory, and the production location is
    [.mfsu-production] under the project's cwd. *)
Theorem C9_cache_locations :
  ∀ api,
    (∀ m p, truthy_str (configured_output (userConfig api) m) = Some p →
            getMfsuPath api m = Path.join [cwd api; p])
    ∧ (truthy_str (configured_output (userConfig api) development) = None →
       getMfsuPath api development = Path.join [absTmpPath api; ".cache"; ".mfsu"])
    ∧ (truthy_str (configured_output (userConfig api) production) = None →
       getMfsuPath api production = Path.join [cwd api; "./.mfsu-production"]).
Proof.
  intros api. unfold getMfsuPath. repeat split.
  - intros [] p ->; reflexivity.
  - by intros ->.
  - by intros ->.
Qed.

Lemma C9_cache_locations_witness :
  getMfsuPath Samples.api_dev_output development = "/proj/cache/.mfsu-dev"
  ∧ getMfsuPath Samples.api0 development = "/proj/src/.umi/.cache/.mfsu"
  ∧ getMfsuPath Samples.api_dev_output production = "/proj/.mfsu-production".
Proof.
  split; [|split].
  - apply (proj1 (C9_cache_locations Samples.api_dev_output) development
             "cache/.mfsu-dev").
    reflexivity.
  - apply (proj1 (proj2 (C9_cache_locations Samples.api0))). reflexivity.
  - apply (proj2 (proj2 (C9_cache_locations Samples.api_dev_output))). reflexivity.
Defined.

(** ** The version resolver *)

Section Resolver_facts.
Import Resolver.
Context (aliases : gmap string string) (m : Manifests) (cwd : list string).

Lemma prefix_snoc_cases (a l : list string) x :
  a `prefix_of` l ++ [x] ↔ a = l ++ [x] ∨ a `prefix_of` l.
Proof.
  split.
  - intros [k Hk]. destruct (decide (k = [])) as [->|Hne].
    + left. by rewrite app_nil_r in Hk.
    + right. destruct (exists_last Hne) as (k' & y & ->).
      rewrite app_assoc in Hk. apply app_inj_tail in Hk as [-> _].
      by exists k'.
  - intros [->|[k ->]]; [done|]. exists (k ++ [x]). by rewrite app_assoc.
Qed.

Lemma manifest_up_None rdir :
  manifest_up m rdir = None ↔ ∀ a, a `prefix_of` rev rdir → m !! a = None.
Proof.
  induction rdir as [|x parent IH]; simpl.
  - destruct (m !! []) eqn:E.
    + split; [discriminate|]. intros H. rewrite H in E; [discriminate | done].
    + split; [|done]. intros _ a Ha. by apply prefix_nil_inv in Ha as ->.
  - destruct (m !! (rev parent ++ [x])) eqn:E.
    + split; [discriminate|]. intros H. rewrite H in E; [discriminate | done].
    + rewrite IH. split.
      * intros H a [->|Ha]%prefix_snoc_cases; [done | by apply H].
      * intros H a Ha. apply H, prefix_snoc_cases. by right.
Qed.

Lemma manifest_up_Some rdir d v :
  manifest_up m rdir = Some (d, v) →
  d `prefix_of` rev rdir ∧ m !! d = Some v
  ∧ ∀ a, a `prefix_of` rev rdir → d `prefix_of` a → a ≠ d → m !! a = None.
Proof.
  induction rdir as [|x parent IH]; simpl.
  - destruct (m !! []) eqn:E; [|discriminate]. intros [= <- <-].
    split; [done | split; [done|]].
    intros a Ha _ Hne. by apply prefix_nil_inv in Ha.
  - destruct (m !! (rev parent ++ [x])) eqn:E.
    + intros [= <- <-]. split; [done | split; [done|]].
      intros a Ha Hd Hne. exfalso. apply Hne.
      apply (anti_symm prefix); done.
    + intros H. destruct (IH H) as (Hp & Hv & Hn). split; [|split].
      * apply prefix_snoc_cases. by right.
      * done.
      * intros a [->|Ha]%prefix_snoc_cases Hd Hne; [done | by apply Hn].
Qed.

Lemma install_up_None root rdir :
  install_up m root rdir = None ↔
  ∀ a, a `prefix_of` rev rdir → m !! (a ++ "node_modules" :: root) = None.
Proof.
  induction rdir as [|x parent IH]; simpl.
  - destruct (m !! ("node_modules" :: root)) eqn:E.
    + split; [discriminate|]. intros H.
      specialize (H [] (prefix_nil _)). simpl in H. congruence.
    + split; [|done]. intros _ a Ha. by apply prefix_nil_inv in Ha as ->.
  - destruct (m !! ((rev parent ++ [x]) ++ "node_modules" :: root)) eqn:E.
    + split; [discriminate|]. intros H. rewrite H in E; [discriminate | done].
    + rewrite IH. split.
      * intros H a [->|Ha]%prefix_snoc_cases; [done | by apply H].
      * intros H a Ha. apply H, prefix_snoc_cases. by right.
Qed.

Lemma install_up_Some root rdir dir v :
  install_up m root rdir = Some (dir, v) →
  ∃ a, dir = a ++ "node_modules" :: root ∧ a `prefix_of` rev rdir
       ∧ m !! dir = Some v
       ∧ ∀ a', a' `prefix_of` rev rdir → a `prefix_of` a' → a' ≠ a →
               m !! (a' ++ "node_modules" :: root) = None.
Proof.
  induction rdir as [|x parent IH]; simpl.
  - destruct (m !! ("node_modules" :: root)) eqn:E; [|discriminate].
    intros [= <- <-]. exists []. split; [done | split; [done | split; [done|]]].
    intros a Ha _ Hne. by apply prefix_nil_inv in Ha.
  - destruct (m !! ((rev parent ++ [x]) ++ "node_modules" :: root)) eqn:E.
    + intros [= <- <-]. exists (rev parent ++ [x]).
      split; [done | split; [done | split; [done|]]].
      intros a Ha Hd Hne. exfalso. apply Hne.
      apply (anti_symm prefix); done.
    + intros H. destruct (IH H) as (a & -> & Hp & Hv & Hn).
      exists a. split; [done | split; [|split]].
      * apply prefix_snoc_cases. by right.
      * done.
      * intros a' [->|Ha]%prefix_snoc_cases Hd Hne; [done | by apply Hn].
Qed.

Lemma locate_abs_unresolved p :
  locate m cwd (Abs p) = UnresolvedDependency ↔ ∀ a, a `prefix_of` p → m !! a = None.
Proof.
  simpl. pose proof (manifest_up_None (rev p)) as H.
  rewrite rev_involutive in H. rewrite <- H.
  destruct (manifest_up m (rev p)) as [[d v]|]; split; done.
Qed.

Lemma locate_abs_nearest p d v :
  nearest_manifest m p d v →
  locate m cwd (Abs p) = Resolved {| version := v; file := show_path p |}.
Proof.
  intros (Hd & Hv & Hnear). simpl.
  destruct (manifest_up m (rev p)) as [[d' v']|] eqn:E.
  - apply manifest_up_Some in E as (Hd' & Hv' & Hnear').
    rewrite rev_involutive in Hd', Hnear'.
    destruct (decide (d' = d)) as [->|Hne]; [congruence|]. exfalso.
    destruct (prefix_weak_total _ _ _ Hd Hd') as [Hdd'|Hd'd].
    + rewrite (Hnear d') in Hv'; [discriminate | done | done | done].
    + rewrite (Hnear' d) in Hv; [discriminate | done | done | congruence].
  - exfalso. pose proof (proj1 (manifest_up_None (rev p)) E d) as Hnone.
    rewrite rev_involutive in Hnone. rewrite Hnone in Hv; [discriminate | done].
Qed.

Lemma package_root_split root sub :
  package_root_name root → package_root (root ++ sub) = (root, sub).
Proof.
  intros [name Hn|scope name Hs]; unfold package_root; cbn [app].
  - destruct sub as [|s sub]; [done|]. by rewrite Hn.
  - by rewrite Hs.
Qed.

Lemma locate_bare_unresolved root sub :
  package_root_name root →
  locate m cwd (Bare (root ++ sub)) = UnresolvedDependency
  ↔ ∀ a, a `prefix_of` cwd → m !! (a ++ "node_modules" :: root) = None.
Proof.
  intros Hroot. unfold locate. rewrite package_root_split by done.
  pose proof (install_up_None root (rev cwd)) as H.
  rewrite rev_involutive in H. rewrite <- H.
  destruct (install_up m root (rev cwd)) as [[d v]|]; split; done.
Qed.

Lemma locate_bare_nearest root sub a v :
  package_root_name root → nearest_install m cwd root a v →
  locate m cwd (Bare (root ++ sub))
  = Resolved {| version := v;
                file := show_path ((a ++ "node_modules" :: root) ++ sub) |}.
Proof.
  intros Hroot (Ha & Hv & Hnear). unfold locate.
  rewrite package_root_split by done.
  destruct (install_up m root (rev cwd)) as [[d' v']|] eqn:E.
  - apply install_up_Some in E as (a' & -> & Ha' & Hv' & Hnear').
    rewrite rev_involutive in Ha', Hnear'.
    destruct (decide (a' = a)) as [->|Hne]; [congruence|]. exfalso.
    destruct (prefix_weak_total _ _ _ Ha Ha') as [Haa'|Ha'a].
    + rewrite (Hnear a') in Hv'; [discriminate | done | done | done].
    + rewrite (Hnear' a) in Hv; [discriminate | done | done | congruence].
  - exfalso. pose proof (proj1 (install_up_None root (rev cwd)) E a) as Hnone.
    rewrite rev_involutive in Hnone. rewrite Hnone in Hv; [discriminate | done].
Qed.

Lemma alias_entry_unaliased segs :
  unaliased aliases segs → ∀ n, n ≤ length segs → alias_entry aliases segs n = None.
Proof.
  intros Hun. induction n as [|n IH]; intros Hn; simpl; [done|].
  rewrite Hun by lia. apply IH. lia.
Qed.

Lemma alias_step_unaliased segs :
  unaliased aliases segs → alias_step aliases (Bare segs) = None.
Proof. intros Hun. simpl. by rewrite alias_entry_unaliased. Qed.

Lemma alias_entry_longest key remainder v :
  longest_alias aliases key remainder v →
  ∀ n, length key ≤ n ≤ length (key ++ remainder) →
       alias_entry aliases (key ++ remainder) n = Some (v, remainder).
Proof.
  intros (Hne & Hkey & Hlong). induction n as [|n IH]; intros Hn.
  - destruct key; [done | simpl in Hn; lia].
  - simpl. destruct (decide (S n = length key)) as [Heq|Hneq].
    + rewrite Heq, take_app_length, Hkey. by rewrite drop_app_length.
    + rewrite Hlong by lia. apply IH. lia.
Qed.

Lemma alias_step_longest key remainder v :
  longest_alias aliases key remainder v →
  alias_step aliases (Bare (key ++ remainder))
  = Some (match parse v with
          | Abs p => Abs (p ++ remainder)
          | Bare q => Bare q
          end).
Proof.
  intros H. simpl. rewrite (alias_entry_longest key remainder v H); [done|].
  rewrite length_app. lia.
Qed.

Lemma longest_alias_size key remainder v :
  longest_alias aliases key remainder v → 1 ≤ size aliases.
Proof.
  intros (_ & Hkey & _).
  pose proof (map_size_ne_0_lookup_2 aliases _ (mk_is_Some _ _ Hkey)). lia.
Qed.

(** resolution of a specifier that the table does not redirect *)
Lemma resolve_end fuel s :
  alias_step aliases s = None →
  resolve (S fuel) aliases m cwd s = locate m cwd s.
Proof. intros H. simpl. by rewrite H. Qed.

End Resolver_facts.

Lemma alias_step_empty s : Resolver.alias_step ∅ s = None.
Proof.
  destruct s as [p|segs]; simpl; [done|].
  assert (H : ∀ n, Resolver.alias_entry ∅ segs n = None).
  { induction n as [|n IH]; simpl; [done|]. by rewrite lookup_empty. }
  by rewrite H.
Qed.

Lemma size_two_keys (aliases : gmap string string) k1 k2 v1 v2 :
  aliases !! k1 = Some v1 → aliases !! k2 = Some v2 → k1 ≠ k2 → 2 ≤ size aliases.
Proof.
  intros H1 H2 Hne.
  assert (size (delete k1 aliases) ≠ 0) as Hd.
  { apply (map_size_ne_0_lookup_2 _ k2). rewrite lookup_delete_ne by done. eauto. }
  rewrite map_size_delete, H1 in Hd. simpl in Hd. lia.
Qed.

(** what [getDepVersion] does, case by case *)

Lemma getDepVersion_absolute aliases m cwd p :
  Forall (λ s, Resolver.segment s = true) p →
  Resolver.getDepVersion aliases m cwd (Resolver.show_path p)
  = Resolver.locate m (Resolver.segments cwd) (Resolver.Abs p).
Proof.
  intros Hp. unfold Resolver.getDepVersion. by rewrite parse_show_path.
Qed.

Lemma getDepVersion_unaliased aliases m cwd segs :
  Forall (λ s, Resolver.segment s = true) segs →
  Resolver.unaliased aliases segs →
  Resolver.getDepVersion aliases m cwd (Str.join "/" segs)
  = Resolver.locate m (Resolver.segments cwd) (Resolver.Bare segs).
Proof.
  intros Hs Hun. unfold Resolver.getDepVersion. rewrite parse_join by done.
  apply resolve_end. by apply alias_step_unaliased.
Qed.

Lemma unaliased_empty segs : Resolver.unaliased ∅ segs.
Proof. intros j _. apply lookup_empty. Qed.

Lemma getDepVersion_alias_absolute aliases m cwd key remainder p :
  Forall (λ s, Resolver.segment s = true) (key ++ remainder) →
  Forall (λ s, Resolver.segment s = true) p →
  Resolver.longest_alias aliases key remainder (Resolver.show_path p) →
  Resolver.getDepVersion aliases m cwd (Str.join "/" (key ++ remainder))
  = Resolver.locate m (Resolver.segments cwd) (Resolver.Abs (p ++ remainder)).
Proof.
  intros Hs Hp Hl. unfold Resolver.getDepVersion. rewrite parse_join by done.
  pose proof (longest_alias_size _ _ _ _ Hl) as Hsize.
  destruct (size aliases) as [|n] eqn:En; [lia|].
  cbn [Resolver.resolve]. rewrite (alias_step_longest _ _ _ _ Hl).
  by rewrite parse_show_path.
Qed.

Lemma getDepVersion_alias_specifier aliases m cwd key remainder q :
  Forall (λ s, Resolver.segment s = true) (key ++ remainder) →
  Forall (λ s, Resolver.segment s = true) q →
  Resolver.longest_alias aliases key remainder (Str.join "/" q) →
  Resolver.unaliased aliases q →
  Resolver.getDepVersion aliases m cwd (Str.join "/" (key ++ remainder))
  = Resolver.locate m (Resolver.segments cwd) (Resolver.Bare q).
Proof.
  intros Hs Hq Hl Hun. unfold Resolver.getDepVersion. rewrite parse_join by done.
  pose proof (longest_alias_size _ _ _ _ Hl) as Hsize.
  destruct (size aliases) as [|n] eqn:En; [lia|].
  cbn [Resolver.resolve]. rewrite (alias_step_longest _ _ _ _ Hl).
  rewrite parse_join by done. by rewrite alias_step_unaliased.
Qed.

(** C8. Resolution fails with [UnresolvedDependency] exactly when no
    package manifest can be located for the specifier. For a specifier
    of the install tree that the alias table does not redirect, resolved
    from [cwd]: it fails exactly when neither [cwd] nor any of its
    ancestors up to the root has the package in its install directory,
    and otherwise the resolver ascends to the nearest directory that has
    it and returns the version of that manifest. For an absolute path: it
    fails exactly when no manifest lies at the path or above it, and
    otherwise the nearest manifest above gives the version. And through
    an alias: a specifier whose longest prefix in the table is mapped to
    an absolute path fails exactly when no manifest lies at that path
    with the sub-path appended or above it, and one mapped to a specifier
    that the table does not redirect fails exactly when that specifier
    does. *)
Theorem C8_unresolved_iff_no_manifest :
  (∀ aliases m cwd root sub,
      Forall (λ s, Resolver.segment s = true) cwd →
      Forall (λ s, Resolver.segment s = true) (root ++ sub) →
      Resolver.package_root_name root →
      Resolver.unaliased aliases (root ++ sub) →
      (Resolver.getDepVersion aliases m (Resolver.show_path cwd)
         (Str.join "/" (root ++ sub)) = Resolver.UnresolvedDependency
       ↔ ∀ a, a `prefix_of` cwd → m !! (a ++ "node_modules" :: root) = None)
      ∧ (∀ a v, Resolver.nearest_install m cwd root a v →
                Resolver.getDepVersion aliases m (Resolver.show_path cwd)
                  (Str.join "/" (root ++ sub))
                = Resolver.Resolved
                    {| version := v;
                       file := Resolver.show_path
                                 ((a ++ "node_modules" :: root) ++ sub) |}))
  ∧ (∀ aliases m cwd p,
        Forall (λ s, Resolver.segment s = true) p →
        (Resolver.getDepVersion aliases m cwd (Resolver.show_path p)
         = Resolver.UnresolvedDependency
         ↔ ∀ a, a `prefix_of` p → m !! a = None)
        ∧ (∀ d v, Resolver.nearest_manifest m p d v →
                  Resolver.getDepVersion aliases m cwd (Resolver.show_path p)
                  = Resolver.Resolved
                      {| version := v; file := Resolver.show_path p |}))
  ∧ (∀ aliases m cwd key remainder p,
        Forall (λ s, Resolver.segment s = true) (key ++ remainder) →
        Forall (λ s, Resolver.segment s = true) p →
        Resolver.longest_alias aliases key remainder (Resolver.show_path p) →
        (Resolver.getDepVersion aliases m cwd (Str.join "/" (key ++ remainder))
         = Resolver.UnresolvedDependency
         ↔ ∀ a, a `prefix_of` p ++ remainder → m !! a = None))
  ∧ (∀ aliases m cwd key remainder root sub,
        Forall (λ s, Resolver.segment s = true) cwd →
        Forall (λ s, Resolver.segment s = true) (key ++ remainder) →
        Forall (λ s, Resolver.segment s = true) (root ++ sub) →
        Resolver.package_root_name root →
        Resolver.longest_alias aliases key remainder (Str.join "/" (root ++ sub)) →
        Resolver.unaliased aliases (root ++ sub) →
        (Resolver.getDepVersion aliases m (Resolver.show_path cwd)
           (Str.join "/" (key ++ remainder)) = Resolver.UnresolvedDependency
         ↔ ∀ a, a `prefix_of` cwd → m !! (a ++ "node_modules" :: root) = None)).
Proof.
  split; [|split; [|split]].
  - intros aliases m cwd root sub Hcwd Hs Hroot Hun.
    rewrite getDepVersion_unaliased, segments_show_path by done.
    split; [by apply locate_bare_unresolved|].
    intros a v Hnear. by apply locate_bare_nearest.
  - intros aliases m cwd p Hp. rewrite getDepVersion_absolute by done.
    split; [apply locate_abs_unresolved|].
    intros d v Hnear. by eapply locate_abs_nearest.
  - intros aliases m cwd key remainder p Hs Hp Hl.
    rewrite (getDepVersion_alias_absolute aliases m cwd key remainder p) by done.
    apply locate_abs_unresolved.
  - intros aliases m cwd key remainder root sub Hcwd Hs Hq Hroot Hl Hun.
    rewrite (getDepVersion_alias_specifier aliases m _ key remainder (root ++ sub))
      by done.
    rewrite segments_show_path by done. by apply locate_bare_unresolved.
Qed.

Lemma C8_unresolved_iff_no_manifest_witness :
  Resolver.getDepVersion ∅ Samples.manifests0 (Resolver.show_path ["proj"; "src"; "pages"])
    (Str.join "/" (["@babel"; "core"] ++ ["lib"; "index.js"]))
  = Resolver.Resolved
      {| version := "7.1.0";
         file := Resolver.show_path
                   ((["proj"] ++ "node_modules" :: ["@babel"; "core"])
                    ++ ["lib"; "index.js"]) |}
  ∧ Resolver.getDepVersion {[ "foo" := "/bar" ]} Samples.manifests0 "/proj"
      (Str.join "/" (["foo"] ++ []))
    = Resolver.UnresolvedDependency.
Proof.
  split.
  - apply (proj2 (proj1 C8_unresolved_iff_no_manifest ∅ Samples.manifests0
                    ["proj"; "src"; "pages"] ["@babel"; "core"] ["lib"; "index.js"]
                    ltac:(repeat constructor) ltac:(repeat constructor)
                    (Resolver.root_scoped "@babel" "core" eq_refl)
                    (unaliased_empty _))).
    split; [by exists ["src"; "pages"] | split; [vm_compute; reflexivity|]].
    intros a' Ha' Ha Hne.
    apply (prefix_snoc_cases a' ["proj"; "src"] "pages") in Ha' as [->|Ha'];
      [vm_compute; reflexivity|].
    apply (prefix_snoc_cases a' ["proj"] "src") in Ha' as [->|Ha'];
      [vm_compute; reflexivity|].
    exfalso. apply Hne. by apply (anti_symm prefix).
  - apply (proj1 (proj2 (proj2 C8_unresolved_iff_no_manifest)) {[ "foo" := "/bar" ]}
             Samples.manifests0 "/proj" ["foo"] [] ["bar"]);
      [repeat constructor | repeat constructor | |].
    { split; [done|]. split; [reflexivity|]. intros j Hj. simpl in Hj. lia. }
    intros a Ha.
    apply (prefix_snoc_cases a [] "bar") in Ha as [->|Ha]; [vm_compute; reflexivity|].
    apply prefix_nil_inv in Ha as ->. vm_compute. reflexivity.
Defined.

(** the manifest found from a location on which no manifest lies below
    [p] is the one found from [p] *)
Lemma locate_abs_remainder (m : Resolver.Manifests) cwd p remainder :
  (∀ a, a `prefix_of` p ++ remainder → p `prefix_of` a → a ≠ p → m !! a = None) →
  Resolver.version_of (Resolver.locate m cwd (Resolver.Abs (p ++ remainder)))
  = Resolver.version_of (Resolver.locate m cwd (Resolver.Abs p)).
Proof.
  intros Hfree. simpl.
  destruct (Resolver.manifest_up m (rev (p ++ remainder))) as [[d v]|] eqn:E1.
  - apply manifest_up_Some in E1 as (Hd & Hv & Hnear).
    rewrite rev_involutive in Hd, Hnear.
    destruct (Resolver.manifest_up m (rev p)) as [[d' v']|] eqn:E2.
    + apply manifest_up_Some in E2 as (Hd' & Hv' & Hnear').
      rewrite rev_involutive in Hd', Hnear'. simpl.
      destruct (decide (d = d')) as [->|Hne]; [congruence|]. exfalso.
      assert (d `prefix_of` p) as Hdp.
      { destruct (prefix_weak_total _ _ _ Hd (prefix_app_r p p remainder (reflexivity p)))
          as [?|Hpd]; [done|].
        destruct (decide (d = p)) as [->|Hdne]; [done|].
        rewrite (Hfree d) in Hv; [discriminate | done | done | done]. }
      destruct (prefix_weak_total _ _ _ Hd' Hdp) as [Hd'd|Hdd'].
      * rewrite (Hnear' d) in Hv; [discriminate | done | done | done].
      * rewrite (Hnear d') in Hv'; [discriminate | | done | congruence].
        by apply prefix_app_r.
    + exfalso. pose proof (proj1 (manifest_up_None m (rev p)) E2) as Hnone.
      rewrite rev_involutive in Hnone.
      destruct (prefix_weak_total _ _ _ Hd (prefix_app_r p p remainder (reflexivity p)))
        as [Hdp|Hpd].
      * rewrite (Hnone d Hdp) in Hv. discriminate.
      * destruct (decide (d = p)) as [->|Hdne].
        -- rewrite Hnone in Hv; [discriminate | done].
        -- rewrite (Hfree d) in Hv; [discriminate | done | done | done].
  - pose proof (proj1 (manifest_up_None m (rev (p ++ remainder))) E1) as Hnone.
    rewrite rev_involutive in Hnone.
    destruct (Resolver.manifest_up m (rev p)) as [[d' v']|] eqn:E2; [|done].
    apply manifest_up_Some in E2 as (Hd' & Hv' & _).
    rewrite rev_involutive in Hd'.
    rewrite Hnone in Hv'; [discriminate|]. by apply prefix_app_r.
Qed.

(** two keys of the table that follow each other in a chain that ends
    are different keys *)
Lemma chained_keys_differ aliases key1 rem1 key2 rem2 v2 :
  Forall (λ s, Resolver.segment s = true) (key2 ++ rem2) →
  Resolver.longest_alias aliases key1 rem1 (Str.join "/" (key2 ++ rem2)) →
  Resolver.longest_alias aliases key2 rem2 v2 →
  (∃ p, v2 = Resolver.show_path p)
  ∨ (∃ q, Forall (λ s, Resolver.segment s = true) q ∧ v2 = Str.join "/" q
          ∧ Resolver.unaliased aliases q) →
  2 ≤ size aliases.
Proof.
  intros Hs2 (_ & Hk1 & _) (Hne2 & Hk2 & _) Hv2.
  apply (size_two_keys aliases _ _ _ _ Hk1 Hk2). intros Heq.
  rewrite Heq, Hk2 in Hk1. injection Hk1 as Hv.
  destruct Hv2 as [[p ->]|(q & Hq & -> & Hun)].
  - pose proof (join_not_absolute _ Hs2) as Hj. by rewrite <- Hv in Hj.
  - assert (q = key2 ++ rem2) as ->.
    { by rewrite <- (segments_join q), Hv, segments_join. }
    specialize (Hun (length key2)). rewrite take_app_length, Hk2 in Hun.
    assert (0 < length key2 ≤ length (key2 ++ rem2)) as Hlen.
    { rewrite length_app. destruct key2; [done | simpl; lia]. }
    specialize (Hun Hlen). discriminate.
Qed.

Lemma getDepVersion_two_hops aliases m cwd key1 rem1 key2 rem2 v2 :
  Forall (λ s, Resolver.segment s = true) (key1 ++ rem1) →
  Forall (λ s, Resolver.segment s = true) (key2 ++ rem2) →
  Resolver.longest_alias aliases key1 rem1 (Str.join "/" (key2 ++ rem2)) →
  Resolver.longest_alias aliases key2 rem2 v2 →
  (∀ p, Forall (λ s, Resolver.segment s = true) p → v2 = Resolver.show_path p →
        Resolver.getDepVersion aliases m cwd (Str.join "/" (key1 ++ rem1))
        = Resolver.locate m (Resolver.segments cwd) (Resolver.Abs (p ++ rem2)))
  ∧ (∀ q, Forall (λ s, Resolver.segment s = true) q → v2 = Str.join "/" q →
          Resolver.unaliased aliases q →
          Resolver.getDepVersion aliases m cwd (Str.join "/" (key1 ++ rem1))
          = Resolver.locate m (Resolver.segments cwd) (Resolver.Bare q)).
Proof.
  intros Hs1 Hs2 Hl1 Hl2. split.
  - intros p Hp ->.
    pose proof (chained_keys_differ _ _ _ _ _ _ Hs2 Hl1 Hl2
                  (or_introl (ex_intro _ p eq_refl))) as Hsize.
    unfold Resolver.getDepVersion. rewrite parse_join by done.
    destruct (size aliases) as [|[|n]]; [lia | lia |].
    cbn [Resolver.resolve].
    rewrite (alias_step_longest _ _ _ _ Hl1), parse_join by done.
    rewrite (alias_step_longest _ _ _ _ Hl2), parse_show_path by done.
    reflexivity.
  - intros q Hq -> Hun.
    pose proof (chained_keys_differ _ _ _ _ _ _ Hs2 Hl1 Hl2
                  (or_intror (ex_intro _ q (conj Hq (conj eq_refl Hun))))) as Hsize.
    unfold Resolver.getDepVersion. rewrite parse_join by done.
    destruct (size aliases) as [|[|n]]; [lia | lia |].
    cbn [Resolver.resolve].
    rewrite (alias_step_longest _ _ _ _ Hl1), parse_join by done.
    rewrite (alias_step_longest _ _ _ _ Hl2), parse_join by done.
    by rewrite alias_step_unaliased.
Qed.

(** C7 (as stated, refuted). With the alias [vendor] for the directory
    [/proj/vendor], the specifier [vendor/lib] resolves to the version of
    the package vendored at [/proj/vendor/lib], while the alias's target
    [/proj/vendor], resolved directly, has the version of the manifest of
    [/proj]. (Without the alias table the specifier resolves as well, to
    the installed package [vendor].) *)
Lemma C7_remainder_changes_version :
  Resolver.version_of
    (Resolver.getDepVersion Samples.aliases_vendor Samples.manifests_vendor
       "/proj" "vendor/lib") = Some "2.0.0"
  ∧ Resolver.version_of
      (Resolver.getDepVersion ∅ Samples.manifests_vendor "/proj" "/proj/vendor")
    = Some "1.0.0"
  ∧ Resolver.version_of
      (Resolver.getDepVersion ∅ Samples.manifests_vendor "/proj" "vendor/lib")
    = Some "9.9.9".
Proof. vm_compute. repeat split. Qed.

(** C7 (amended). A specifier is given by its segments, [key] being its
    longest prefix that is a key of the alias table and [remainder] the
    sub-path after it. When the value of the key is a specifier that the
    table does not redirect, the resolver returns the version that
    resolving this specifier directly (with no alias table) returns,
    whatever the remainder is. When the value is an absolute path, it
    returns the version that resolving the path with the remainder
    appended returns, the version of the nearest manifest above that
    location; this is the version of resolving the path alone whenever no
    manifest lies on the remainder below the path. And so through two
    redirections, the first of which leads to a specifier whose longest
    prefix in the table is [key2]. *)
Theorem C7_alias_chain_same_version :
  (∀ aliases m cwd key remainder p,
      Forall (λ s, Resolver.segment s = true) (key ++ remainder) →
      Forall (λ s, Resolver.segment s = true) p →
      Resolver.longest_alias aliases key remainder (Resolver.show_path p) →
      Resolver.version_of
        (Resolver.getDepVersion aliases m cwd (Str.join "/" (key ++ remainder)))
      = Resolver.version_of
          (Resolver.getDepVersion ∅ m cwd (Resolver.show_path (p ++ remainder)))
      ∧ ((∀ a, a `prefix_of` p ++ remainder → p `prefix_of` a → a ≠ p →
               m !! a = None) →
         Resolver.version_of
           (Resolver.getDepVersion aliases m cwd (Str.join "/" (key ++ remainder)))
         = Resolver.version_of
             (Resolver.getDepVersion ∅ m cwd (Resolver.show_path p)))
      ∧ (∀ d v, Resolver.nearest_manifest m (p ++ remainder) d v →
                Resolver.version_of
                  (Resolver.getDepVersion aliases m cwd
                     (Str.join "/" (key ++ remainder)))
                = Some v))
  ∧ (∀ aliases m cwd key remainder q,
        Forall (λ s, Resolver.segment s = true) (key ++ remainder) →
        Forall (λ s, Resolver.segment s = true) q →
        Resolver.longest_alias aliases key remainder (Str.join "/" q) →
        Resolver.unaliased aliases q →
        Resolver.version_of
          (Resolver.getDepVersion aliases m cwd (Str.join "/" (key ++ remainder)))
        = Resolver.version_of (Resolver.getDepVersion ∅ m cwd (Str.join "/" q)))
  ∧ (∀ aliases m cwd key1 rem1 key2 rem2 v2,
        Forall (λ s, Resolver.segment s = true) (key1 ++ rem1) →
        Forall (λ s, Resolver.segment s = true) (key2 ++ rem2) →
        Resolver.longest_alias aliases key1 rem1 (Str.join "/" (key2 ++ rem2)) →
        Resolver.longest_alias aliases key2 rem2 v2 →
        (∀ p, Forall (λ s, Resolver.segment s = true) p →
              v2 = Resolver.show_path p →
              Resolver.version_of
                (Resolver.getDepVersion aliases m cwd (Str.join "/" (key1 ++ rem1)))
              = Resolver.version_of
                  (Resolver.getDepVersion ∅ m cwd (Resolver.show_path (p ++ rem2))))
        ∧ (∀ q, Forall (λ s, Resolver.segment s = true) q →
                v2 = Str.join "/" q →
                Resolver.unaliased aliases q →
                Resolver.version_of
                  (Resolver.getDepVersion aliases m cwd (Str.join "/" (key1 ++ rem1)))
                = Resolver.version_of
                    (Resolver.getDepVersion ∅ m cwd (Str.join "/" q)))).
Proof.
  split; [|split].
  - intros aliases m cwd key remainder p Hs Hp Hl.
    assert (Forall (λ s, Resolver.segment s = true) (p ++ remainder)) as Hpr.
    { apply Forall_app. split; [done|]. by apply Forall_app in Hs as [_ ?]. }
    rewrite (getDepVersion_alias_absolute aliases m cwd key remainder p) by done.
    rewrite !getDepVersion_absolute by done.
    split; [done|]. split.
    + apply locate_abs_remainder.
    + intros d v Hnear. by erewrite locate_abs_nearest.
  - intros aliases m cwd key remainder q Hs Hq Hl Hun.
    rewrite (getDepVersion_alias_specifier aliases m cwd key remainder q) by done.
    rewrite getDepVersion_unaliased; [done | done | apply unaliased_empty].
  - intros aliases m cwd key1 rem1 key2 rem2 v2 Hs1 Hs2 Hl1 Hl2.
    destruct (getDepVersion_two_hops aliases m cwd key1 rem1 key2 rem2 v2)
      as [Habs Hbare]; [done..|].
    split.
    + intros p Hp Hv. rewrite (Habs p) by done.
      rewrite getDepVersion_absolute; [done|].
      apply Forall_app. split; [done|]. by apply Forall_app in Hs2 as [_ ?].
    + intros q Hq Hv Hun. rewrite (Hbare q) by done.
      rewrite getDepVersion_unaliased; [done | done | apply unaliased_empty].
Qed.

Lemma C7_alias_chain_same_version_witness :
  Resolver.version_of
    (Resolver.getDepVersion Samples.aliases_vendor Samples.manifests_vendor "/proj"
       (Str.join "/" (["vendor"] ++ ["src"])))
  = Resolver.version_of
      (Resolver.getDepVersion ∅ Samples.manifests_vendor "/proj"
         (Resolver.show_path ["proj"; "vendor"]))
  ∧ Resolver.version_of
      (Resolver.getDepVersion Samples.aliases_chain Samples.manifests0 "/proj"
         (Str.join "/" (["foo"] ++ ["x.js"])))
    = Resolver.version_of
        (Resolver.getDepVersion ∅ Samples.manifests0 "/proj"
           (Str.join "/" ["@babel"; "core"])).
Proof.
  split.
  - refine (proj1 (proj2 (proj1 C7_alias_chain_same_version Samples.aliases_vendor
                            Samples.manifests_vendor "/proj" ["vendor"] ["src"]
                            ["proj"; "vendor"] _ _ _)) _).
    + repeat constructor.
    + repeat constructor.
    + split; [done|]. split; [reflexivity|]. intros j Hj. simpl in Hj.
      assert (j = 2) as -> by lia. vm_compute. reflexivity.
    + intros a Ha Hp Hne.
      apply (prefix_snoc_cases a ["proj"; "vendor"] "src") in Ha as [->|Ha];
        [vm_compute; reflexivity|].
      exfalso. apply Hne. by apply (anti_symm prefix).
  - refine (proj2 (proj2 (proj2 C7_alias_chain_same_version) Samples.aliases_chain
                     Samples.manifests0 "/proj" ["foo"] ["x.js"] ["bar"] []
                     "@babel/core" _ _ _ _) ["@babel"; "core"] _ _ _).
    + repeat constructor.
    + repeat constructor.
    + split; [done|]. split; [reflexivity|]. intros j Hj. simpl in Hj.
      assert (j = 2) as -> by lia. vm_compute. reflexivity.
    + split; [done|]. split; [reflexivity|]. intros j Hj. simpl in Hj. lia.
    + repeat constructor.
    + reflexivity.
    + intros j Hj. simpl in Hj.
      assert (j = 1 ∨ j = 2) as [->| ->] by lia; vm_compute; reflexivity.
Defined.

(** ** The models against the tests and the scenario that come with them *)

(** the cases of getDepVersion.test.ts, on the installed tree of the test *)
Example getDepVersion_tests :
  let v aliases cwd dep :=
    Resolver.version_of (Resolver.getDepVersion aliases Samples.manifests_repo cwd dep) in
  let transform := "/repo/node_modules/@babel/core/src/transform-file-browser" in
  v ∅ "/repo" "/repo/node_modules/@babel/runtime/helpers/esm/slicedToArray" = Some "7.14.0"
  ∧ v ∅ "/repo" "/repo/node_modules/lodash/fp/array" = Some "4.17.21"
  ∧ v ∅ "/repo" transform = Some "7.14.3"
  ∧ v {[ "foo" := transform ]} "/repo" "foo" = Some "7.14.3"
  ∧ v {[ "foo" := transform ]} "/repo" "foo/bar" = Some "7.14.3"
  ∧ v {[ "foo.js" := transform ]} "/repo" "foo.js" = Some "7.14.3"
  ∧ v {[ "foo/bar.js" := transform ]} "/repo" "foo/bar.js" = Some "7.14.3"
  ∧ v {[ "foo" := "@babel/core" ]} "/repo" "foo" = Some "7.14.3"
  ∧ v {[ "foo" := "@babel/core" ]} "/repo" "foo/bar" = Some "7.14.3"
  ∧ v {[ "foo" := "@babel/core" ]} "/repo" "foo/bar.js" = Some "7.14.3"
  ∧ v ∅ "/repo" "@babel/core/src/transform-file-browser" = Some "7.14.3"
  ∧ v ∅ "/repo" "@babel/core" = Some "7.14.3"
  ∧ v ∅ Samples.test_dirname "@babel/core" = Some "7.14.3"
  ∧ v ∅ Samples.test_dirname "@babel/core/src/xxx.js" = Some "7.14.3"
  ∧ Resolver.getDepVersion {[ "foo" := "/bar" ]} Samples.manifests_repo "/repo" "foo"
    = Resolver.UnresolvedDependency
  ∧ Resolver.getDepVersion ∅ Samples.manifests_repo "/repo" "foooooooo"
    = Resolver.UnresolvedDependency.
Proof. vm_compute. repeat split. Qed.

(** the scenario of the spec: from an empty Snapshot, four passes *)
Example tracker_scenario :
  let r1 := Samples.pass (Samples.resolve_pass "4.17.0") ["lodash"; "react"] true
              (Tracker.loadCache None) in
  let r2 := r1 ≫= λ x, Samples.pass (Samples.resolve_pass "4.17.0")
                          ["react"; "lodash"; "react"] false x.2 in
  let r3 := r2 ≫= λ x, Samples.pass (Samples.resolve_pass "4.17.0")
                          ["lodash"; "react"; "axios"] true x.2 in
  let r4 := r3 ≫= λ x, Samples.pass (Samples.resolve_pass "4.18.0")
                          ["lodash"; "react"] true x.2 in
  fst <$> r1 = Some true
  ∧ (λ x, Tracker.persisted x.2) <$> r1 = Some Samples.snapshotA
  ∧ fst <$> r2 = Some false
  ∧ (λ x, Tracker.persisted x.2) <$> r2 = Some Samples.snapshotA
  ∧ fst <$> r3 = Some true
  ∧ fst <$> r4 = Some true.
Proof. vm_compute. repeat split. Qed.

(** * Further properties of the plugin *)

(** ** The regular expressions *)

Lemma match_here_literal p rest :
  Re.match_here (Re.literal p) (p +:+ rest) = Some rest.
Proof.
  induction p as [|c p IH]; simpl; [done|].
  by rewrite bool_decide_eq_true_2.
Qed.

Lemma match_here_literal_inv p : ∀ s rest,
  Re.match_here (Re.literal p) s = Some rest → s = p +:+ rest.
Proof.
  induction p as [|c p IH]; simpl; intros s rest.
  - by intros [= ->].
  - destruct s as [|d s]; [discriminate|].
    destruct (bool_decide (d = c)) eqn:E; [|discriminate].
    apply bool_decide_eq_true in E as ->. intros H. by rewrite (IH _ _ H).
Qed.

Lemma test_unfold re s :
  Re.test re s = match Re.match_here re s with
                 | Some _ => true
                 | None => match s with
                           | EmptyString => false
                           | String _ s' => Re.test re s'
                           end
                 end.
Proof. by destruct s. Qed.

Lemma test_here re s rest : Re.match_here re s = Some rest → Re.test re s = true.
Proof. intros H. by rewrite test_unfold, H. Qed.

Lemma test_app re a : ∀ s, Re.test re s = true → Re.test re (a +:+ s) = true.
Proof.
  induction a as [|c a IH]; intros s H; [done|].
  rewrite test_unfold. change (String c a +:+ s) with (String c (a +:+ s)).
  destruct (Re.match_here re (String c (a +:+ s))); [done | by apply IH].
Qed.

Lemma test_inv re : ∀ s,
  Re.test re s = true → ∃ a b rest, s = a +:+ b ∧ Re.match_here re b = Some rest.
Proof.
  induction s as [|c s IH]; rewrite test_unfold.
  - destruct (Re.match_here re "") as [r|] eqn:E; [|discriminate].
    intros _. by exists "", "", r.
  - destruct (Re.match_here re (String c s)) as [r|] eqn:E.
    + intros _. by exists "", (String c s), r.
    + intros H. destruct (IH H) as (a & b & r & -> & Hm).
      by exists (String c a), b, r.
Qed.

(** a literal expression tests for a substring *)
Lemma test_literal_iff p s :
  Re.test (Re.literal p) s = true ↔ ∃ a b, s = a +:+ p +:+ b.
Proof.
  split.
  - intros H. destruct (test_inv _ _ H) as (a & b & r & -> & Hm).
    apply match_here_literal_inv in Hm as ->. by exists a, r.
  - intros (a & b & ->). apply test_app.
    eapply test_here, match_here_literal.
Qed.

(** ** Configuration check *)

(** X1. [checkConfig] accepts a configuration exactly when every
    configured (non-empty) output, of development and of production,
    holds [.mfsu] somewhere in it; an option left out, or one that is the
    empty string, is not checked. *)
Theorem checkConfig_accepts_iff :
  ∀ api,
    checkConfig api = Ok tt ↔
    ∀ m out, truthy_str (configured_output (config api) m) = Some out →
             ∃ a b, out = a +:+ ".mfsu" +:+ b.
Proof.
  intros api. unfold checkConfig. split.
  - intros H m out Hout. apply test_literal_iff. fold Re.dot_mfsu.
    destruct (truthy_str (configured_output (config api) development)) as [od|] eqn:Ed;
      destruct (truthy_str (configured_output (config api) production)) as [op|] eqn:Ep;
      simpl in H; unfold assert in H;
      repeat match type of H with
        | context [Re.test Re.dot_mfsu ?o] =>
            destruct (Re.test Re.dot_mfsu o) eqn:?; simpl in H; try discriminate
        end;
      destruct m; congruence.
  - intros H.
    assert (∀ m out, truthy_str (configured_output (config api) m) = Some out →
                     Re.test Re.dot_mfsu out = true) as H'.
    { intros m out Ho. apply test_literal_iff. eauto. }
    destruct (truthy_str (configured_output (config api) development)) as [od|] eqn:Ed;
      destruct (truthy_str (configured_output (config api) production)) as [op|] eqn:Ep;
      simpl; unfold assert;
      rewrite ?(H' development od Ed), ?(H' production op Ep); simpl;
      rewrite ?(H' production op Ep); done.
Qed.

Lemma checkConfig_accepts_iff_witness :
  checkConfig Samples.api_dev_output = Ok tt.
Proof.
  apply (proj2 (checkConfig_accepts_iff Samples.api_dev_output)).
  intros [] out; vm_compute; intros [= <-].
  by exists "cache/", "-dev".
Defined.

(** ** Start of a run *)

Lemma parse_mode_name m : Plugin.parse_mode (mode_name m) = Some m.
Proof. by destruct m. Qed.

Lemma parse_mode_Some s m : Plugin.parse_mode s = Some m → s = mode_name m.
Proof.
  unfold Plugin.parse_mode.
  destruct (bool_decide (s = "development")) eqn:E1.
  - apply bool_decide_eq_true in E1 as ->. by intros [= <-].
  - destruct (bool_decide (s = "production")) eqn:E2; [|discriminate].
    apply bool_decide_eq_true in E2 as ->. by intros [= <-].
Qed.

Lemma parse_mode_None s :
  Plugin.parse_mode s = None ↔ s ≠ "development" ∧ s ≠ "production".
Proof.
  unfold Plugin.parse_mode. repeat case_bool_decide; subst; split; try done.
  - intros [? ?]. done.
  - intros [? ?]. done.
Qed.

(** what [onStart] does once the configuration is accepted *)
Lemma onStart_checked api disk name args w :
  checkConfig api = Ok tt →
  Plugin.onStart api disk name args w =
  match Plugin.parse_mode (Plugin.start_mode (mode w) name args) with
  | None =>
      Thrown ("[MFSU] Unsupported mode " +:+ Plugin.start_mode (mode w) name args
              +:+ ", expect development or production.") w
  | Some m =>
      Done tt
        {| mode := m; webpackAlias := webpackAlias w;
           webpackExternals := webpackExternals w; publicPath := publicPath w;
           depInfo := Tracker.loadCache disk;
           tmpDir := getMfsuPath api m;
           dirs := match dirs w !! getMfsuPath api m with
                   | Some _ => dirs w
                   | None => <[getMfsuPath api m := ∅]> (dirs w)
                   end;
           trace := trace w |}
  end.
Proof.
  intros Hc. unfold Plugin.onStart, bind, lift, get. rewrite Hc. simpl.
  by destruct (Plugin.parse_mode _).
Qed.

(** X2. With an accepted configuration, [onStart] of the [build] command
    selects production whatever the arguments; a [--mode] argument is
    honoured only for the [mfsu] command whose second positional argument
    is [build], otherwise the mode stays as it was; and [onStart] throws
    exactly when that honoured argument names neither development nor
    production. The cache directory of the run is that of the mode
    selected. *)
Theorem onStart_mode_selection :
  ∀ api disk name args w,
    checkConfig api = Ok tt →
    (name = "build" →
     ∃ w', Plugin.onStart api disk name args w = Done tt w'
           ∧ mode w' = production ∧ tmpDir w' = getMfsuPath api production)
    ∧ (name ≠ "build" →
       name ≠ "mfsu" ∨ positional args !! 1 ≠ Some "build"
       ∨ truthy_str (arg_mode args) = None →
       ∃ w', Plugin.onStart api disk name args w = Done tt w'
             ∧ mode w' = mode w ∧ tmpDir w' = getMfsuPath api (mode w))
    ∧ (∀ m, name = "mfsu" → positional args !! 1 = Some "build" →
            truthy_str (arg_mode args) = Some (mode_name m) →
            ∃ w', Plugin.onStart api disk name args w = Done tt w'
                  ∧ mode w' = m ∧ tmpDir w' = getMfsuPath api m)
    ∧ (is_thrown (Plugin.onStart api disk name args w) = true ↔
       name = "mfsu" ∧ positional args !! 1 = Some "build"
       ∧ ∃ s, truthy_str (arg_mode args) = Some s
              ∧ s ≠ "development" ∧ s ≠ "production").
Proof.
  intros api disk name args w Hc.
  rewrite (onStart_checked api disk name args w Hc).
  unfold Plugin.start_mode.
  split; [|split; [|split]].
  - intros ->. simpl. by eexists.
  - intros Hb Hor. rewrite (bool_decide_eq_false_2 _ Hb).
    assert (Plugin.parse_mode
              (if bool_decide (name = "mfsu")
                  && bool_decide (positional args !! 1 = Some "build")
               then match truthy_str (arg_mode args) with
                    | Some m => m
                    | None => mode_name (mode w)
                    end
               else mode_name (mode w)) = Some (mode w)) as ->.
    { destruct Hor as [H|[H|H]].
      - rewrite (bool_decide_eq_false_2 _ H). simpl. apply parse_mode_name.
      - rewrite (bool_decide_eq_false_2 _ H), andb_false_r. apply parse_mode_name.
      - rewrite H. destruct (_ && _); apply parse_mode_name. }
    by eexists.
  - intros m -> Hp Hm. simpl.
    rewrite (bool_decide_eq_true_2 _ Hp), Hm, parse_mode_name. by eexists.
  - destruct (bool_decide (name = "build")) eqn:Eb; [simpl; split; [done|] |].
    { apply bool_decide_eq_true in Eb as ->. by intros [[=] _]. }
    destruct (bool_decide (name = "mfsu")) eqn:Em; simpl.
    2: { rewrite parse_mode_name. simpl. apply bool_decide_eq_false in Em.
         split; [done | by intros [? _]]. }
    apply bool_decide_eq_true in Em.
    destruct (bool_decide (positional args !! 1 = Some "build")) eqn:Ep.
    2: { rewrite parse_mode_name. simpl. apply bool_decide_eq_false in Ep.
         split; [done | by intros (_ & ? & _)]. }
    apply bool_decide_eq_true in Ep.
    destruct (truthy_str (arg_mode args)) as [s|] eqn:Es.
    2: { rewrite parse_mode_name. simpl.
         split; [done | by intros (_ & _ & ? & [=] & _)]. }
    destruct (Plugin.parse_mode s) as [m|] eqn:Epm; simpl.
    + split; [done|]. intros (_ & _ & s' & [= <-] & Hs).
      apply parse_mode_None in Hs. congruence.
    + split; [|done]. intros _. apply parse_mode_None in Epm. eauto.
Qed.

Lemma onStart_mode_selection_witness :
  ∃ w', Plugin.onStart Samples.api0 None "build"
          {| positional := ["build"]; arg_force := false;
             arg_mode := Some "development" |}
          (Samples.world0 development) = Done tt w'
        ∧ mode w' = production ∧ tmpDir w' = getMfsuPath Samples.api0 production.
Proof.
  apply (proj1 (onStart_mode_selection Samples.api0 None "build"
                  {| positional := ["build"]; arg_force := false;
                     arg_mode := Some "development" |}
                  (Samples.world0 development) eq_refl)).
  reflexivity.
Defined.

(** X3. A successful [onStart] leaves the cache directory of the run in
    existence, creating it empty when it was absent, and keeps every
    directory that existed with the files it had; it records no event and
    leaves the collected aliases, the externals and the public path as
    they were. *)
Theorem onStart_keeps_directories :
  ∀ api disk name args w w',
    Plugin.onStart api disk name args w = Done tt w' →
    is_Some (dirs w' !! tmpDir w')
    ∧ (dirs w !! tmpDir w' = None → dirs w' !! tmpDir w' = Some ∅)
    ∧ (∀ d fs, dirs w !! d = Some fs → dirs w' !! d = Some fs)
    ∧ trace w' = trace w ∧ webpackAlias w' = webpackAlias w
    ∧ webpackExternals w' = webpackExternals w ∧ publicPath w' = publicPath w.
Proof.
  intros api disk name args w w' H.
  destruct (checkConfig api) as [[]|msg] eqn:Hc.
  2: { unfold Plugin.onStart, bind, lift in H. rewrite Hc in H. discriminate. }
  rewrite (onStart_checked api disk name args w Hc) in H.
  destruct (Plugin.parse_mode _) as [m|]; [|discriminate].
  injection H as <-. simpl.
  destruct (dirs w !! getMfsuPath api m) as [fs0|] eqn:Ed.
  - split; [by rewrite Ed | split; [done | split; [done|]]]. done.
  - split; [|split; [|split; [|done]]].
    + rewrite lookup_insert_eq. by eexists.
    + intros _. apply lookup_insert_eq.
    + intros d fs Hd. rewrite lookup_insert_ne; [done|]. congruence.
Qed.

Lemma onStart_keeps_directories_witness :
  is_Some (dirs (state_of (Plugin.onStart Samples.api0 None "build"
                             {| positional := []; arg_force := false; arg_mode := None |}
                             Samples.world_shared))
           !! "/proj/.mfsu-production").
Proof.
  exact (proj1 (onStart_keeps_directories Samples.api0 None "build"
                  {| positional := []; arg_force := false; arg_mode := None |}
                  Samples.world_shared
                  (state_of (Plugin.onStart Samples.api0 None "build"
                               {| positional := []; arg_force := false;
                                  arg_mode := None |}
                               Samples.world_shared))
                  eq_refl)).
Defined.

(** ** Cache locations and the public path *)

Lemma normalize_absolute p :
  Str.starts_with_slash p = true → Str.starts_with_slash (Path.normalize p) = true.
Proof.
  intros H. unfold Path.normalize. destruct p as [|c p]; [discriminate|].
  cbn [Str.is_empty]. rewrite H. cbn [negb].
  destruct (Str.is_empty _); [done|]. cbn zeta.
  destruct (Str.ends_with_slash _); done.
Qed.

Lemma join_absolute a rest :
  Str.starts_with_slash a = true → Str.starts_with_slash (Path.join (a :: rest)) = true.
Proof.
  intros H. unfold Path.join.
  assert (Str.is_empty a = false) as Ha by by destruct a.
  rewrite filter_cons_True by done.
  apply normalize_absolute.
  destruct a as [|c a]; [discriminate|].
  by destruct (filter _ rest).
Qed.

(** X4. When the project's cwd and temporary directory are absolute
    paths, the cache location of either mode is an absolute path, whether
    it is configured or the default, and also when the configured output
    is itself written as an absolute path or climbs with [..]: the output
    is joined to the cwd, not resolved against it. *)
Theorem getMfsuPath_absolute :
  ∀ api m,
    Str.starts_with_slash (cwd api) = true →
    Str.starts_with_slash (absTmpPath api) = true →
    Str.starts_with_slash (getMfsuPath api m) = true.
Proof.
  intros api m Hc Ht. unfold getMfsuPath.
  destruct m; destruct (truthy_str _); by apply join_absolute.
Qed.

Lemma getMfsuPath_absolute_witness :
  Str.starts_with_slash (getMfsuPath Samples.api_dev_output development) = true.
Proof.
  apply (getMfsuPath_absolute Samples.api_dev_output development); reflexivity.
Defined.

(** what the [modifyBundleConfig] hook does for the client bundle *)
Lemma modifyBundleConfig_csr k api memo flag w :
  let merged :=
    {| mode := mode w;
       webpackAlias := object_assign (webpackAlias w) (default ∅ (resolve_alias memo));
       webpackExternals := webpackExternals w; publicPath := publicPath w;
       depInfo := depInfo w; tmpDir := tmpDir w; dirs := dirs w; trace := trace w |} in
  Plugin.modifyBundleConfig k api memo csr flag w =
  if bool_decide (typeof (or_empty_object (externals memo)) = "object")
  then
    Done
      {| resolve_alias := resolve_alias memo; externals := externals memo;
         output_publicPath := output_publicPath memo;
         plugins :=
           (if flag then plugins memo
            else plugins memo ++
                 [ModuleFederationPlugin "umi-app"
                    (default (DEFAULT_MF_NAME k)
                       (truthy_str (mc ← mfsu (config api); mfName mc)))
                    (default (DEFAULT_MF_NAME k)
                       (truthy_str (mc ← mfsu (config api); mfName mc))
                     +:+ "@" +:+ MF_VA_PREFIX k +:+ "remoteEntry.js")]);
         topLevelAwait := true |}
      {| mode := mode w;
         webpackAlias := object_assign (webpackAlias w) (default ∅ (resolve_alias memo));
         webpackExternals :=
           object_assign (webpackExternals w)
             (own_props (or_empty_object (externals memo)));
         publicPath := output_publicPath memo;
         depInfo := depInfo w; tmpDir := tmpDir w; dirs := dirs w; trace := trace w |}
  else Thrown (externals_message (externals memo)) merged.
Proof.
  unfold Plugin.modifyBundleConfig, bind, lift, modify, assert. cbn zeta.
  by destruct (bool_decide _).
Qed.

(** X5. Once the hook of the client bundle has taken the public path from
    the bundler configuration, and when that public path is made of
    letters, digits, [/], [-] and [_] only, which a regular expression
    matches as they stand, a request whose path is the public path
    followed by [rest] is answered from [rest] under the development
    cache directory: the file there is sent, a directory there makes the
    read fail, and the request is passed on when nothing is there. *)
Theorem public_path_is_stripped :
  ∀ rt k api memo flag w memo' w' rest url files,
    (∀ p, Re.all_ordinary p = true →
          RegExp rt ("^" +:+ p) = Some (Re.replace_prefix (Re.literal p) "/")) →
    Re.all_ordinary (output_publicPath memo) = true →
    Plugin.modifyBundleConfig k api memo csr flag w = Done memo' w' →
    is_Some (mfsu (userConfig api)) →
    output_publicPath memo +:+ rest ≠ "/" →
    Interceptor.middleware rt api w' files
      {| req_path := output_publicPath memo +:+ rest; req_url := url |}
    = match files !! Path.join [getMfsuPath api development; rest] with
      | Some (File content) =>
          Sent (("content-type",
                 mime_lookup rt (Path.ext (output_publicPath memo +:+ rest)))
                :: (if Re.test Re.remoteEntry_js url
                    then [] else [Interceptor.immutable_header]))
               (utf8_text rt content)
      | Some Dir => ReadFailed
      | None => Next
      end.
Proof.
  intros rt k api memo flag w memo' w' rest url files Hrt Hord H Hon Hpath.
  rewrite modifyBundleConfig_csr in H.
  destruct (bool_decide _); [|discriminate]. injection H as _ <-.
  unfold Interceptor.middleware. cbn [publicPath req_path req_url].
  rewrite (Hrt _ Hord). cbv zeta.
  unfold Re.replace_prefix. rewrite match_here_literal.
  change (Str.slice1 ("/" +:+ rest)) with rest.
  rewrite (bool_decide_eq_true_2 _ Hon), (bool_decide_eq_false_2 _ Hpath).
  cbn [negb orb].
  destruct (files !! _) as [[content|]|].
  - rewrite bool_decide_eq_true_2 by by eexists. cbn [negb].
    by destruct (Re.test Re.remoteEntry_js url).
  - by rewrite bool_decide_eq_true_2 by by eexists.
  - by rewrite (bool_decide_eq_false_2 (is_Some None)) by apply is_Some_None.
Qed.

Lemma public_path_is_stripped_witness :
  Interceptor.middleware Samples.node0 Samples.api0
    (state_of (Plugin.modifyBundleConfig
                 {| DEFAULT_MF_NAME := "mf"; MF_VA_PREFIX := "mf-va_" |} Samples.api0
                 {| resolve_alias := None; externals := JUndefined;
                    output_publicPath := "/app/v1/"; plugins := [];
                    topLevelAwait := false |}
                 csr false (Samples.world0 development)))
    Samples.files0
    {| req_path := "/app/v1/" +:+ "mf-dep_vendor.js"; req_url := "/app/v1/mf-dep_vendor.js" |}
  = match Samples.files0 !! Path.join [getMfsuPath Samples.api0 development;
                                       "mf-dep_vendor.js"] with
    | Some (File content) =>
        Sent (("content-type",
               mime_lookup Samples.node0 (Path.ext ("/app/v1/" +:+ "mf-dep_vendor.js")))
              :: (if Re.test Re.remoteEntry_js "/app/v1/mf-dep_vendor.js"
                  then [] else [Interceptor.immutable_header]))
             (utf8_text Samples.node0 content)
    | Some Dir => ReadFailed
    | None => Next
    end.
Proof.
  eapply (public_path_is_stripped Samples.node0
            {| DEFAULT_MF_NAME := "mf"; MF_VA_PREFIX := "mf-va_" |} Samples.api0
            {| resolve_alias := None; externals := JUndefined;
               output_publicPath := "/app/v1/"; plugins := [];
               topLevelAwait := false |}
            false (Samples.world0 development)).
  - intros p Hp. change ("^" +:+ p) with (String "^" p).
    unfold RegExp, Samples.node0, Samples.regexp0. by rewrite Hp.
  - reflexivity.
  - vm_compute. reflexivity.
  - by eexists.
  - discriminate.
Defined.

(** ** Outcomes of the request middleware *)

(** X6. The middleware fails on the regular expression exactly when the
    public path does not compile, whatever the request and the
    configuration are. When it compiles, [replace] being the replacement
    of its match by [/]: the request is passed on exactly when the
    feature is not configured, or the path is the root [/], or nothing
    exists at the requested place under the development cache directory;
    and when something exists there that is a directory, not a file,
    reading it fails: the request is neither served nor passed on. *)
Theorem middleware_outcomes :
  ∀ rt api w files req,
    (Interceptor.middleware rt api w files req = PatternFailed ↔
     RegExp rt ("^" +:+ publicPath w) = None)
    ∧ ∀ replace,
        RegExp rt ("^" +:+ publicPath w) = Some replace →
        (Interceptor.middleware rt api w files req = Next ↔
         mfsu (userConfig api) = None ∨ req_path req = "/"
         ∨ files !! Path.join [getMfsuPath api development;
                               Str.slice1 (replace (req_path req))] = None)
        ∧ (Interceptor.middleware rt api w files req = ReadFailed ↔
           is_Some (mfsu (userConfig api)) ∧ req_path req ≠ "/"
           ∧ files !! Path.join [getMfsuPath api development;
                                 Str.slice1 (replace (req_path req))] = Some Dir).
Proof.
  intros rt api w files req.
  unfold Interceptor.middleware.
  destruct (RegExp rt ("^" +:+ publicPath w)) as [replace0|] eqn:Hre.
  2: { split; [done|]. intros replace [=]. }
  cbv zeta. split.
  { split; [|discriminate]. destruct (negb _ || _ || _); [discriminate|].
    by destruct (files !! _) as [[?|]|]. }
  intros replace [= <-].
  destruct (mfsu (userConfig api)) as [mc|] eqn:Em.
  2: { rewrite (bool_decide_eq_false_2 (is_Some None)) by apply is_Some_None. simpl.
       split; split; try done; [by left | by intros [[? [=]] _]]. }
  rewrite (bool_decide_eq_true_2 (is_Some (Some mc))) by by eexists. simpl.
  destruct (decide (req_path req = "/")) as [Hp|Hp].
  { rewrite (bool_decide_eq_true_2 _ Hp). simpl.
    split; split; try done; [by right; left | by intros (_ & ? & _)]. }
  rewrite (bool_decide_eq_false_2 _ Hp). simpl.
  destruct (files !! _) as [[content|]|] eqn:Ef.
  - rewrite bool_decide_eq_true_2 by by eexists. simpl.
    split; (split; [discriminate|]).
    + intros [?|[?|?]]; done.
    + intros (_ & _ & ?); done.
  - rewrite bool_decide_eq_true_2 by by eexists. simpl.
    split; split; [discriminate | | |done].
    + intros [?|[?|?]]; done.
    + intros _. split; [by eexists | done].
  - rewrite (bool_decide_eq_false_2 (is_Some None)) by apply is_Some_None. simpl.
    split; split; [ | done | discriminate | ].
    + intros _. by right; right.
    + intros (_ & _ & ?); done.
Qed.

Lemma middleware_outcomes_witness :
  Interceptor.middleware Samples.node0 Samples.api_shared Samples.world_shared
    Samples.files0 {| req_path := "/"; req_url := "/" |} = Next.
Proof.
  refine (proj2 (proj1 (proj2 (middleware_outcomes Samples.node0 Samples.api_shared
                  Samples.world_shared Samples.files0
                  {| req_path := "/"; req_url := "/" |})
                  (Re.replace_prefix (Re.literal "/") "/") _)) _).
  - reflexivity.
  - right. left. reflexivity.
Defined.

Lemma match_here_app re1 re2 : ∀ s,
  Re.match_here (re1 ++ re2) s = Re.match_here re1 s ≫= Re.match_here re2.
Proof.
  induction re1 as [|x re1 IH]; intros s; simpl; [done|].
  destruct s as [|c s]; [done|]. by destruct (Re.atom_matches x c).
Qed.

Lemma remoteEntry_mentioned a c b :
  Re.line_terminator c = false →
  Re.test Re.remoteEntry_js (a +:+ "remoteEntry" +:+ String c ("js" +:+ b)) = true.
Proof.
  intros Hc. apply test_app. apply (test_here _ _ b).
  unfold Re.remoteEntry_js. rewrite match_here_app, match_here_literal.
  cbn [mbind option_bind Re.match_here Re.atom_matches]. rewrite Hc. cbn [negb].
  apply match_here_literal.
Qed.

(** X7. A response never carries the immutable cache-control header when
    the URL holds [remoteEntry], any one character that is not a line
    break, and [js] anywhere in it, in the query string as well as in the
    path: this goes for every file served, not for the entry file only. *)
Theorem url_mentioning_entry_not_immutable :
  ∀ rt api w files req a c b headers body,
    Re.line_terminator c = false →
    req_url req = a +:+ "remoteEntry" +:+ String c ("js" +:+ b) →
    Interceptor.middleware rt api w files req = Sent headers body →
    headers = [("content-type", mime_lookup rt (Path.ext (req_path req)))]
    ∧ Interceptor.immutable_header ∉ headers.
Proof.
  intros rt api w files req a c b headers body Hc Hurl Hs.
  apply middleware_sent in Hs as (_ & _ & _ & _ & _ & _ & _ & ->).
  rewrite Hurl, remoteEntry_mentioned by done.
  split; [done|]. intros [=]%list_elem_of_singleton.
Qed.

Lemma url_mentioning_entry_not_immutable_witness :
  ∃ headers,
    Interceptor.middleware Samples.node0 Samples.api0 (Samples.world0 development)
      Samples.files0
      {| req_path := "/mf-dep_vendor.js";
         req_url := "/mf-dep_vendor.js?from=" +:+ "remoteEntry" +:+ String "-" ("js" +:+ "") |}
    = Sent headers "vendor"
    ∧ Interceptor.immutable_header ∉ headers.
Proof.
  eexists. split; [vm_compute; reflexivity|].
  refine (proj2 (url_mentioning_entry_not_immutable Samples.node0 Samples.api0
            (Samples.world0 development) Samples.files0
            {| req_path := "/mf-dep_vendor.js";
               req_url := "/mf-dep_vendor.js?from=" +:+ "remoteEntry"
                          +:+ String "-" ("js" +:+ "") |}
            "/mf-dep_vendor.js?from=" "-"%char "" _ "vendor" _ _ _)).
  - reflexivity.
  - reflexivity.
  - vm_compute. reflexivity.
Defined.

(** ** Enabling the feature *)

(** X8. The feature counts as enabled in development as soon as [mfsu] is
    configured and in production only with [mfsu.production]; a
    configuration that enables it in production enables it in development
    too. With a non-empty ENABLE_MFSU it is enabled in every environment
    and without any configuration, but then the middleware, which looks
    at the configuration only, serves nothing: it passes every request
    on, or fails on the regular expression when the public path does not
    compile. *)
Theorem enableBy_and_middleware :
  ∀ env api ENABLE_MFSU,
    (Hooks.enableBy env api ENABLE_MFSU = true ↔
     env = "development" ∧ is_Some (mfsu (userConfig api))
     ∨ env = "production"
       ∧ is_Some (mc ← mfsu (userConfig api); mfsu_production mc)
     ∨ is_Some (truthy_str ENABLE_MFSU))
    ∧ (Hooks.enableBy "production" api None = true →
       Hooks.enableBy "development" api None = true)
    ∧ (is_Some (truthy_str ENABLE_MFSU) → mfsu (userConfig api) = None →
       Hooks.enableBy env api ENABLE_MFSU = true
       ∧ ∀ rt w files req,
           Interceptor.middleware rt api w files req
           = match RegExp rt ("^" +:+ publicPath w) with
             | Some _ => Next
             | None => PatternFailed
             end).
Proof.
  intros env api ENABLE_MFSU.
  assert (Hiff : ∀ env e,
             Hooks.enableBy env api e = true ↔
             env = "development" ∧ is_Some (mfsu (userConfig api))
             ∨ env = "production"
               ∧ is_Some (mc ← mfsu (userConfig api); mfsu_production mc)
             ∨ is_Some (truthy_str e)).
  { intros env' e. unfold Hooks.enableBy.
    rewrite !orb_true_iff, !andb_true_iff, !bool_decide_eq_true. tauto. }
  split; [apply Hiff | split].
  - intros [[[=] _]|[[_ H]|[? [=]]]]%Hiff. apply Hiff. left. split; [done|].
    destruct (mfsu (userConfig api)); [by eexists | by destruct H].
  - intros He Hm. split; [apply Hiff; by right; right|].
    intros rt w files req. unfold Interceptor.middleware. rewrite Hm.
    destruct (RegExp rt _); [|done]. cbv zeta.
    by rewrite (bool_decide_eq_false_2 (is_Some None)) by apply is_Some_None.
Qed.

Lemma enableBy_and_middleware_witness :
  Hooks.enableBy "test"
    {| cwd := "/proj"; absTmpPath := "/proj/src/.umi";
       userConfig := {| mfsu := None; outputPath := None |};
       config := {| mfsu := None; outputPath := None |} |} (Some "1") = true.
Proof.
  apply (proj2 (proj2 (enableBy_and_middleware "test"
                         {| cwd := "/proj"; absTmpPath := "/proj/src/.umi";
                            userConfig := {| mfsu := None; outputPath := None |};
                            config := {| mfsu := None; outputPath := None |} |}
                         (Some "1")))).
  - by eexists.
  - reflexivity.
Defined.

(** ** The configuration and transform hooks *)

Lemma or_empty_object_truthy v : truthy (or_empty_object v) = true.
Proof. unfold or_empty_object. by destruct (truthy v) eqn:E. Qed.

Lemma or_empty_object_id v : truthy v = true → or_empty_object v = v.
Proof. unfold or_empty_object. by intros ->. Qed.

(** X9. The configuration hook locks [chunks] to [umi] whatever was
    configured, leaves [dynamicImport] switched on (the configured value
    when it is truthy, an empty object otherwise), keeps every other key,
    and applying it a second time changes nothing. *)
Theorem modifyConfig_locks :
  ∀ memo,
    Hooks.modifyConfig memo !! "chunks" = Some (JArray ["umi"])
    ∧ (∃ v, Hooks.modifyConfig memo !! "dynamicImport" = Some v ∧ truthy v = true
            ∧ ∀ v0, memo !! "dynamicImport" = Some v0 → truthy v0 = true → v = v0)
    ∧ (∀ key, key ≠ "chunks" → key ≠ "dynamicImport" →
              Hooks.modifyConfig memo !! key = memo !! key)
    ∧ Hooks.modifyConfig (Hooks.modifyConfig memo) = Hooks.modifyConfig memo.
Proof.
  intros memo. unfold Hooks.modifyConfig.
  split; [apply lookup_insert_eq | split; [|split]].
  - eexists. split; [|split].
    + rewrite lookup_insert_ne by done. apply lookup_insert_eq.
    + apply or_empty_object_truthy.
    + intros v0 -> Hv. simpl. by apply or_empty_object_id.
  - intros key H1 H2. by rewrite !lookup_insert_ne.
  - rewrite (lookup_insert_ne _ "chunks" "dynamicImport") by done.
    rewrite lookup_insert_eq. simpl.
    rewrite (or_empty_object_id (or_empty_object _)) by apply or_empty_object_truthy.
    apply map_eq. intros key.
    destruct (decide (key = "chunks")) as [->|H1]; [by rewrite !lookup_insert_eq|].
    rewrite !(lookup_insert_ne _ "chunks" key) by done.
    destruct (decide (key = "dynamicImport")) as [->|H2]; [by rewrite !lookup_insert_eq|].
    by rewrite !lookup_insert_ne.
Qed.

Lemma modifyConfig_locks_witness :
  ∃ v, Hooks.modifyConfig {[ "chunks" := JArray ["vendors"; "umi"];
                             "dynamicImport" := JBool false ]} !! "dynamicImport" = Some v
       ∧ truthy v = true.
Proof.
  destruct (proj1 (proj2 (modifyConfig_locks
                            {[ "chunks" := JArray ["vendors"; "umi"];
                               "dynamicImport" := JBool false ]})))
    as (v & Hv & Ht & _).
  exists v. split; [exact Hv | exact Ht].
Defined.

(** X10. [onTransformDeps] hands a specifier to the tracker only when it
    is matched: for an import that is not matched the call returns with
    the state untouched, whatever [addTmpDep] would do. A matched
    specifier is handed over, and the call ends as [addTmpDep] ends,
    except when MFSU_DEBUG is UNMATCHED and the specifier does not start
    with a dot: then the hook returns before collecting it. The hook
    prints at most one line, the line of the import, and none when
    MFSU_DEBUG is unset or empty or when the specifier starts with a
    dot. *)
Theorem onTransformDeps_collects :
  ∀ addTmpDep dbg absSrcPath opts w,
    (td_isMatch opts = false →
     (Hooks.onTransformDeps addTmpDep dbg absSrcPath opts w).2 = Done tt w)
    ∧ (td_isMatch opts = true → truthy_str dbg = Some "UNMATCHED" →
       Str.starts_with "." (td_source opts) = false →
       Hooks.onTransformDeps addTmpDep dbg absSrcPath opts w = ([], Done tt w))
    ∧ (td_isMatch opts = true →
       truthy_str dbg ≠ Some "UNMATCHED" ∨ Str.starts_with "." (td_source opts) = true →
       (Hooks.onTransformDeps addTmpDep dbg absSrcPath opts w).2
       = match addTmpDep (td_source opts) (depInfo w) with
         | Ok d => Done tt (set_depInfo d w)
         | Throw msg => Thrown msg w
         end)
    ∧ length (Hooks.onTransformDeps addTmpDep dbg absSrcPath opts w).1 ≤ 1
    ∧ (∀ line,
          line ∈ (Hooks.onTransformDeps addTmpDep dbg absSrcPath opts w).1 →
          line = Hooks.debug_line
                   (Hooks.replace_first (absSrcPath +:+ "/") "@/" (td_file opts)) opts)
    ∧ (truthy_str dbg = None ∨ Str.starts_with "." (td_source opts) = true →
       (Hooks.onTransformDeps addTmpDep dbg absSrcPath opts w).1 = []).
Proof.
  intros addTmpDep dbg absSrcPath opts w.
  assert (Hcollect : td_isMatch opts = true →
            Hooks.collect addTmpDep opts w
            = match addTmpDep (td_source opts) (depInfo w) with
              | Ok d => Done tt (set_depInfo d w)
              | Throw msg => Thrown msg w
              end).
  { intros Hm. unfold Hooks.collect, bind, get, lift, modify, ret, throw.
    rewrite Hm. by destruct (addTmpDep _ _). }
  unfold Hooks.onTransformDeps. cbv zeta.
  split; [|split; [|split; [|split; [|split]]]].
  - intros Hm. unfold Hooks.collect. rewrite Hm.
    destruct (truthy_str dbg) as [d|]; [|done].
    destruct (negb _); [|done].
    rewrite andb_false_r. cbn [negb]. rewrite andb_true_r.
    by destruct (bool_decide (d = "MATCHED")).
  - intros Hm -> ->. rewrite Hm. reflexivity.
  - intros Hm Hor. rewrite <- (Hcollect Hm).
    destruct (truthy_str dbg) as [d|] eqn:Ed; [|done].
    destruct (Str.starts_with "." (td_source opts)) eqn:Es; cbn [negb]; [done|].
    rewrite Hm. cbn [negb]. rewrite andb_false_r, andb_true_r.
    destruct Hor as [Hne|?]; [|done].
    by rewrite bool_decide_eq_false_2 by congruence.
  - destruct (truthy_str dbg) as [d|]; [|simpl; lia].
    destruct (negb _); [|simpl; lia].
    destruct (_ && _); [simpl; lia|]. destruct (_ && _); simpl; lia.
  - intros line.
    destruct (truthy_str dbg) as [d|]; [|by intros ?%elem_of_nil].
    destruct (negb _); [|by intros ?%elem_of_nil].
    destruct (_ && _); [by intros ?%elem_of_nil|].
    destruct (_ && _); [by intros ?%elem_of_nil|].
    by intros ->%list_elem_of_singleton.
  - intros [-> | ->]; [done|]. destruct (truthy_str dbg); done.
Qed.

Lemma onTransformDeps_collects_witness :
  Hooks.onTransformDeps (λ dep d, Ok (Tracker.addTmpDep dep d)) (Some "UNMATCHED")
    "/proj/src"
    {| td_file := "/proj/src/pages/index.tsx"; td_source := "lodash"; td_isMatch := true |}
    (Samples.world0 development)
  = ([], Done tt (Samples.world0 development)).
Proof.
  apply (proj1 (proj2 (onTransformDeps_collects (λ dep d, Ok (Tracker.addTmpDep dep d))
                         (Some "UNMATCHED") "/proj/src"
                         {| td_file := "/proj/src/pages/index.tsx";
                            td_source := "lodash"; td_isMatch := true |}
                         (Samples.world0 development))));
    reflexivity.
Defined.

(** ** Notifications and order of a dependency build *)

(** X11. In a [buildDeps] call that returns, the dev server is told to
    reload exactly when the mode is development and the cache was written
    in the call, that is after a successful build; a call that notifies
    the server copies nothing into the distribution directory; and when
    the cache is written, what is written is the dependency set that the
    build was invoked with. *)
Theorem buildDeps_notifications :
  ∀ api resolve run force w w',
    Plugin.buildDeps api resolve run force w = Done tt w' →
    (EvSockWrite ∈ events_since w w' ↔
     mode w = development ∧ cache_written (events_since w w') = true)
    ∧ (EvSockWrite ∈ events_since w w' → copied (events_since w w') = false)
    ∧ (∀ deps alias snapshot,
          EvBuild deps alias ∈ events_since w w' →
          EvWriteCache snapshot ∈ events_since w w' →
          snapshot = deps ∧ Tracker.persisted (depInfo w') = deps).
Proof.
  intros api resolve run force w w' Hrun.
  pose proof (buildDeps_spec api resolve run force w) as H.
  destruct (Tracker.loadTmpDeps resolve (depInfo w)) as [[sb d]|msg]; simpl in H;
    [|congruence].
  destruct H as (w1 & Heq & _ & _ & Htr & Hpe & _).
  rewrite Hrun in Heq. injection Heq as <-.
  erewrite events_since_app by exact Htr. rewrite Hpe. clear Htr Hpe Hrun.
  destruct (mode w); simpl;
    destruct (force || sb), (succeeded (completion run)); simpl;
    (split; [split; [intros Hin | intros [Hm Hc]]
            | split; [intros Hin | intros deps alias snapshot Hb Hc]]);
    rewrite ?elem_of_cons, ?elem_of_nil in *;
    try done; try (by intuition discriminate); try (by intuition congruence).
Qed.

Lemma buildDeps_notifications_witness :
  EvSockWrite ∈ events_since (Samples.world0 development)
                  (state_of (Plugin.buildDeps Samples.api0 Samples.resolve0
                               Samples.engine_ok true (Samples.world0 development))).
Proof.
  apply (proj1 (buildDeps_notifications Samples.api0 Samples.resolve0 Samples.engine_ok
                  true (Samples.world0 development)
                  (state_of (Plugin.buildDeps Samples.api0 Samples.resolve0
                               Samples.engine_ok true (Samples.world0 development)))
                  eq_refl)).
  split; [reflexivity | vm_compute; reflexivity].
Defined.

(** ** What the bundler hooks collect *)

Lemma object_assign_lookup (target source : gmap string string) key :
  object_assign target source !! key
  = match source !! key with
    | Some v => Some v
    | None => target !! key
    end.
Proof.
  unfold object_assign. destruct (source !! key) as [v|] eqn:E.
  - by apply lookup_union_Some_l.
  - by rewrite lookup_union_r.
Qed.

(** ** The mfsu command *)

(** X5. The [mfsu] command throws on a subcommand other than [build],
    also when none is given, with a message that names it, and leaves the
    state untouched. Its [build] subcommand is one [buildDeps] call with
    the force flag of the command line: with the flag the build is
    invoked even when [shouldBuild] is false, and a dependency that
    cannot be resolved makes the command throw before any build. *)
Theorem mfsu_command_dispatch :
  ∀ api resolve run args w,
    (∀ sub, positional args !! 0 = Some sub → sub ≠ "build" →
            Plugin.mfsu_command api resolve run args w
            = Thrown ("[MFSU] Unsupported subcommand " +:+ sub +:+ " for mfsu.") w)
    ∧ (positional args !! 0 = None →
       Plugin.mfsu_command api resolve run args w
       = Thrown "[MFSU] Unsupported subcommand undefined for mfsu." w)
    ∧ (positional args !! 0 = Some "build" →
       (arg_force args = true →
        ∀ sb d, Tracker.loadTmpDeps resolve (depInfo w) = Ok (sb, d) →
                build_invoked
                  (events_since w
                     (state_of (Plugin.mfsu_command api resolve run args w))) = true)
       ∧ (∀ msg, Tracker.loadTmpDeps resolve (depInfo w) = Throw msg →
                 Plugin.mfsu_command api resolve run args w = Thrown msg w)).
Proof.
  intros api resolve run args w. unfold Plugin.mfsu_command.
  split; [|split].
  - intros sub -> Hne. by rewrite bool_decide_eq_false_2.
  - by intros ->.
  - intros ->. rewrite bool_decide_eq_true_2 by done.
    pose proof (buildDeps_spec api resolve run (arg_force args) w) as H.
    split.
    + intros Hf sb d Hres. rewrite Hres, Hf in H. rewrite Hf. simpl in H.
      destruct H as (w' & -> & _ & _ & Htr & _). simpl.
      erewrite events_since_app by exact Htr. reflexivity.
    + intros msg Hres. by rewrite Hres in H.
Qed.

Lemma mfsu_command_dispatch_witness :
  Plugin.mfsu_command Samples.api0 Samples.resolve0 Samples.engine_ok
    {| positional := ["serve"]; arg_force := false; arg_mode := None |}
    (Samples.world0 development)
  = Thrown "[MFSU] Unsupported subcommand serve for mfsu." (Samples.world0 development)
  ∧ build_invoked
      (events_since (Samples.world0 development)
         (state_of (Plugin.mfsu_command Samples.api0 Samples.resolve0 Samples.engine_ok
                      {| positional := ["build"]; arg_force := true; arg_mode := None |}
                      (Samples.world0 development)))) = true.
Proof.
  split.
  - refine (proj1 (mfsu_command_dispatch Samples.api0 Samples.resolve0 Samples.engine_ok
                     {| positional := ["serve"]; arg_force := false; arg_mode := None |}
                     (Samples.world0 development)) "serve" _ _).
    + reflexivity.
    + discriminate.
  - refine (proj1 (proj2 (proj2 (mfsu_command_dispatch Samples.api0 Samples.resolve0
                     Samples.engine_ok
                     {| positional := ["build"]; arg_force := true; arg_mode := None |}
                     (Samples.world0 development))) _) _ false (Tracker.loadCache None) _).
    + reflexivity.
    + reflexivity.
    + vm_compute. reflexivity.
Defined.

(** X12. The hook of the client bundle only adds to what the plugin has
    collected: an alias of the bundler configuration takes its new value
    and every other alias collected before is kept, and so for the
    externals; the public path of the bundler configuration becomes the
    one that the middleware uses. Under the [mfsu] flag the plugins come
    back as given; without it one plugin is appended to them: the
    ModuleFederationPlugin named [umi-app] whose only remote is the
    configured [mfName] (DEFAULT_MF_NAME when none is configured or it is
    empty), at [mfName@] followed by MF_VA_PREFIX and [remoteEntry.js].
    When the externals are refused, the aliases have been merged already,
    while the externals and the public path collected before stay. For
    another bundle type the hook changes nothing. *)
Theorem bundle_config_accumulates :
  ∀ k api memo flag w,
    (∀ memo' w',
        Plugin.modifyBundleConfig k api memo csr flag w = Done memo' w' →
        (∀ key, webpackAlias w' !! key
                = match default ∅ (resolve_alias memo) !! key with
                  | Some v => Some v
                  | None => webpackAlias w !! key
                  end)
        ∧ (∀ key, webpackExternals w' !! key
                  = match own_props (or_empty_object (externals memo)) !! key with
                    | Some v => Some v
                    | None => webpackExternals w !! key
                    end)
        ∧ publicPath w' = output_publicPath memo
        ∧ (flag = true → plugins memo' = plugins memo)
        ∧ (flag = false →
           ∀ mf, mf = default (DEFAULT_MF_NAME k)
                        (truthy_str (mc ← mfsu (config api); mfName mc)) →
                 plugins memo'
                 = plugins memo
                   ++ [ModuleFederationPlugin "umi-app" mf
                         (mf +:+ "@" +:+ MF_VA_PREFIX k +:+ "remoteEntry.js")])
        ∧ topLevelAwait memo' = true
        ∧ resolve_alias memo' = resolve_alias memo
        ∧ externals memo' = externals memo
        ∧ output_publicPath memo' = output_publicPath memo
        ∧ depInfo w' = depInfo w ∧ mode w' = mode w ∧ trace w' = trace w)
    ∧ (∀ msg w',
          Plugin.modifyBundleConfig k api memo csr flag w = Thrown msg w' →
          (∀ key, webpackAlias w' !! key
                  = match default ∅ (resolve_alias memo) !! key with
                    | Some v => Some v
                    | None => webpackAlias w !! key
                    end)
          ∧ webpackExternals w' = webpackExternals w
          ∧ publicPath w' = publicPath w)
    ∧ Plugin.modifyBundleConfig k api memo ssr flag w = Done memo w.
Proof.
  intros k api memo flag w. rewrite modifyBundleConfig_csr. cbn zeta.
  split; [|split; [|done]].
  - intros memo' w' H. destruct (bool_decide _); [|discriminate].
    injection H as <- <-. cbn.
    split; [intros key; apply object_assign_lookup|].
    split; [intros key; apply object_assign_lookup|].
    split; [done|].
    split; [by intros ->|].
    split; [by intros -> mf ->|]. done.
  - intros msg w' H. destruct (bool_decide _); [discriminate|].
    injection H as _ <-. cbn.
    split; [intros key; apply object_assign_lookup | done].
Qed.

Lemma bundle_config_accumulates_witness :
  plugins
    (match Plugin.modifyBundleConfig
             {| DEFAULT_MF_NAME := "mf"; MF_VA_PREFIX := "mf-va_" |} Samples.api0
             {| resolve_alias := Some {[ "@" := "/proj/src" ]};
                externals := JUndefined;
                output_publicPath := "/cdn/"; plugins := [OtherPlugin "html"];
                topLevelAwait := false |}
             csr false Samples.world_shared with
     | Done memo' _ => memo'
     | Thrown _ _ =>
         {| resolve_alias := None; externals := JUndefined; output_publicPath := "";
            plugins := []; topLevelAwait := false |}
     end)
  = [OtherPlugin "html"]
    ++ [ModuleFederationPlugin "umi-app" "mf" ("mf" +:+ "@" +:+ "mf-va_" +:+ "remoteEntry.js")].
Proof.
  refine (proj1 (proj2 (proj2 (proj2 (proj2 (proj1 (bundle_config_accumulates
            {| DEFAULT_MF_NAME := "mf"; MF_VA_PREFIX := "mf-va_" |} Samples.api0
            {| resolve_alias := Some {[ "@" := "/proj/src" ]};
               externals := JUndefined;
               output_publicPath := "/cdn/"; plugins := [OtherPlugin "html"];
               topLevelAwait := false |}
            false Samples.world_shared) _ _ _))))) _ "mf" _).
  - vm_compute. reflexivity.
  - reflexivity.
  - reflexivity.
Defined.

(** ** The hook on the Babel options *)

Lemma lower_preset_Ok p p' :
  Hooks.lower_preset p = Ok p' →
  preset_name p' = preset_name p
  ∧ ∀ name options,
      p = PresetEntry name options →
      Re.test Hooks.babel_preset_umi name = true →
      ∃ o e, options = Some o ∧ preset_env o = Some e
             ∧ p' = PresetEntry name
                      (Some {| preset_env := Some (<["useBuiltIns" := JBool false]> e);
                               preset_others := preset_others o |}).
Proof.
  destruct p as [name|name options]; simpl.
  - intros [= <-]. split; [done|]. intros ? ? [=].
  - destruct (Re.test Hooks.babel_preset_umi name) eqn:E.
    + destruct options as [o|]; [|discriminate].
      destruct (preset_env o) as [e|] eqn:Ee; [|discriminate].
      intros [= <-]. split; [done|]. intros ? ? [= <- <-] _. by exists o, e.
    + intros [= <-]. split; [done|]. intros ? ? [= <- <-]. congruence.
Qed.

Lemma lower_presets_Ok l : ∀ l',
  Hooks.lower_presets l = Ok l' →
  Forall2 (λ p p', Hooks.lower_preset p = Ok p') l l'.
Proof.
  induction l as [|p l IH]; simpl; intros l'.
  - intros [= <-]. constructor.
  - destruct (Hooks.lower_preset p) as [p'|] eqn:Ep; simpl; [|discriminate].
    destruct (Hooks.lower_presets l) as [r|] eqn:Er; simpl; [|discriminate].
    intros [= <-]. constructor; [done | by apply IH].
Qed.

(** the entries on which the assignment of [useBuiltIns] fails *)
Lemma lower_presets_Throw_iff l :
  (∃ msg, Hooks.lower_presets l = Throw msg) ↔
  ∃ name options, PresetEntry name options ∈ l
                  ∧ Re.test Hooks.babel_preset_umi name = true
                  ∧ (options = None ∨ ∃ o, options = Some o ∧ preset_env o = None).
Proof.
  induction l as [|p l IH]; simpl.
  - split; [intros [? [=]] | intros (? & ? & []%elem_of_nil & _)].
  - destruct (Hooks.lower_preset p) as [p'|m] eqn:Ep; simpl.
    + destruct (Hooks.lower_presets l) as [r|m] eqn:Er; simpl.
      * split; [intros [? [=]]|].
        intros (name & options & [<-|Hin]%elem_of_cons & Ht & Ho).
        -- exfalso. simpl in Ep. rewrite Ht in Ep.
           destruct Ho as [->|(o & -> & Ho)]; [discriminate|].
           rewrite Ho in Ep. discriminate.
        -- destruct (proj2 IH) as [? [=]]. by exists name, options.
      * split; [|by eexists]. intros _.
        destruct (proj1 IH) as (name & options & Hin & Ht & Ho); [by eexists|].
        exists name, options. split; [by apply elem_of_cons; right | done].
    + split; [|by eexists]. intros _.
      destruct p as [name|name options]; simpl in Ep; [discriminate|].
      destruct (Re.test Hooks.babel_preset_umi name) eqn:E; [|discriminate].
      exists name, options. split; [by apply elem_of_cons; left|]. split; [done|].
      destruct options as [o|]; [|by left]. right. exists o. split; [done|].
      by destruct (preset_env o).
Qed.

(** X13. The hook on the Babel options first sets the alias of core-js,
    then that of regenerator-runtime/runtime, then asks for the umi
    redirect; when one of the three fails, the hook fails with it, the
    aliases before it being set. When it returns, the import-redirect
    plugin, with the one redirect table for umi, dumi and
    @alipay/bigfish, stands first and the plugins given follow unchanged;
    as many presets come back as were given, with their names and in
    their order, and every array entry whose name holds
    [babel-preset-umi] comes back with [env.useBuiltIns] false, the other
    keys of its [env] and of its options as they were. Apart from the
    three calls it fails exactly when the plugins are missing or such an
    entry has no options or no [env]. *)
Theorem modifyBabelOpts_result :
  ∀ core_js regenerator umiRedirect opts w,
    (∀ opts' w',
        Hooks.modifyBabelOpts core_js regenerator umiRedirect opts w = Done opts' w' →
        ∃ c r u given,
          core_js = Ok c ∧ regenerator = Ok r ∧ umiRedirect = Ok u
          ∧ babel_plugins opts = Some given
          ∧ babel_plugins opts' = Some (BabelImportRedirectPlugin u u u :: given)
          ∧ (babel_presets opts = None → babel_presets opts' = None)
          ∧ (∀ l, babel_presets opts = Some l →
                  ∃ l', babel_presets opts' = Some l' ∧ length l' = length l
                        ∧ ∀ i p, l !! i = Some p →
                            ∃ p', l' !! i = Some p'
                                  ∧ preset_name p' = preset_name p
                                  ∧ ∀ name options,
                                      p = PresetEntry name options →
                                      Re.test Hooks.babel_preset_umi name = true →
                                      ∃ o e,
                                        options = Some o ∧ preset_env o = Some e
                                        ∧ p' = PresetEntry name
                                                 (Some {| preset_env :=
                                                            Some (<["useBuiltIns" := JBool false]> e);
                                                          preset_others := preset_others o |})))
    ∧ (is_thrown (Hooks.modifyBabelOpts core_js regenerator umiRedirect opts w) = true ↔
       (∃ msg, core_js = Throw msg) ∨ (∃ msg, regenerator = Throw msg)
       ∨ (∃ msg, umiRedirect = Throw msg)
       ∨ (∃ l name options,
             babel_presets opts = Some l ∧ PresetEntry name options ∈ l
             ∧ Re.test Hooks.babel_preset_umi name = true
             ∧ (options = None ∨ ∃ o, options = Some o ∧ preset_env o = None))
       ∨ babel_plugins opts = None)
    ∧ (∀ msg, core_js = Throw msg →
              Hooks.modifyBabelOpts core_js regenerator umiRedirect opts w = Thrown msg w)
    ∧ (∀ c msg, core_js = Ok c → regenerator = Throw msg →
                Hooks.modifyBabelOpts core_js regenerator umiRedirect opts w
                = Thrown msg (Hooks.set_alias "core-js" c w))
    ∧ (∀ c r, core_js = Ok c → regenerator = Ok r →
         let w' := state_of (Hooks.modifyBabelOpts core_js regenerator umiRedirect opts w) in
         webpackAlias w' !! "core-js" = Some c
         ∧ webpackAlias w' !! "regenerator-runtime/runtime" = Some r
         ∧ ∀ key, key ≠ "core-js" → key ≠ "regenerator-runtime/runtime" →
                  webpackAlias w' !! key = webpackAlias w !! key).
Proof.
  intros core_js regenerator umiRedirect opts w.
  unfold Hooks.modifyBabelOpts, bind, modify, lift, ret, throw.
  destruct core_js as [c|mc]; simpl.
  2: { split; [discriminate|]. split; [split; [by left; eexists | done]|].
       split; [by intros ? [= <-]|]. split; [by intros|]. by intros. }
  destruct regenerator as [r|mr]; simpl.
  2: { split; [discriminate|]. split; [split; [by right; left; eexists | done]|].
       split; [by intros|]. split; [by intros ? ? [= <-] [= <-]|]. by intros. }
  assert (Halias :
    (<["regenerator-runtime/runtime" := r]> (<["core-js" := c]> (webpackAlias w)))
      !! "core-js" = Some c
    ∧ (<["regenerator-runtime/runtime" := r]> (<["core-js" := c]> (webpackAlias w)))
        !! "regenerator-runtime/runtime" = Some r
    ∧ ∀ key, key ≠ "core-js" → key ≠ "regenerator-runtime/runtime" →
             (<["regenerator-runtime/runtime" := r]> (<["core-js" := c]> (webpackAlias w)))
               !! key = webpackAlias w !! key).
  { split; [|split].
    - rewrite lookup_insert_ne by done. apply lookup_insert_eq.
    - apply lookup_insert_eq.
    - intros key H1 H2. by rewrite !lookup_insert_ne. }
  destruct umiRedirect as [u|mu]; simpl.
  2: { split; [discriminate|].
       split; [split; [by right; right; left; eexists | done]|].
       split; [by intros|]. split; [by intros|].
       intros ? ? [= <-] [= <-]. exact Halias. }
  destruct (babel_presets opts) as [l|] eqn:Epre.
  - destruct (Hooks.lower_presets l) as [l'|m] eqn:El; simpl.
    + assert (¬ ∃ name options,
                 PresetEntry name options ∈ l
                 ∧ Re.test Hooks.babel_preset_umi name = true
                 ∧ (options = None ∨ ∃ o, options = Some o ∧ preset_env o = None))
        as Hfine.
      { intros H. apply lower_presets_Throw_iff in H as [? H]. congruence. }
      destruct (babel_plugins opts) as [given|] eqn:Epl; simpl.
      * split; [|split; [|split; [|split]]].
        -- intros opts' w' [= <- <-]. exists c, r, u, given.
           do 5 (split; [done|]). simpl. split; [discriminate|].
           intros l0 [= <-]. apply lower_presets_Ok in El.
           exists l'. split; [done|]. split; [by rewrite (Forall2_length _ _ _ El)|].
           intros i p Hi.
           destruct (Forall2_lookup_l _ _ _ _ _ El Hi) as (p' & Hp' & Hlow).
           exists p'. split; [done|]. by apply lower_preset_Ok.
        -- split; [discriminate|].
           intros [[? [=]]|[[? [=]]|[[? [=]]|[(l0 & name & options & [= <-] & H)|[=]]]]].
           exfalso. apply Hfine. by exists name, options.
        -- by intros.
        -- by intros.
        -- intros ? ? [= <-] [= <-]. exact Halias.
      * split; [discriminate|]. split; [split; [by intros; do 4 right | done]|].
        split; [by intros|]. split; [by intros|].
        intros ? ? [= <-] [= <-]. exact Halias.
    + split; [discriminate|]. split.
      * split; [|done]. intros _. right; right; right; left.
        destruct (proj1 (lower_presets_Throw_iff l)) as (name & options & ?);
          [by eexists|].
        by exists l, name, options.
      * split; [by intros|]. split; [by intros|].
        intros ? ? [= <-] [= <-]. exact Halias.
  - simpl. destruct (babel_plugins opts) as [given|] eqn:Epl; simpl.
    + split; [|split; [|split; [|split]]].
      * intros opts' w' [= <- <-]. exists c, r, u, given.
        do 5 (split; [done|]). simpl. split; [done | discriminate].
      * split; [discriminate|].
        intros [[? [=]]|[[? [=]]|[[? [=]]|[(l0 & name & options & [=] & H)|[=]]]]].
      * by intros.
      * by intros.
      * intros ? ? [= <-] [= <-]. exact Halias.
    + split; [discriminate|]. split; [split; [by intros; do 4 right | done]|].
      split; [by intros|]. split; [by intros|].
      intros ? ? [= <-] [= <-]. exact Halias.
Qed.

Lemma modifyBabelOpts_result_witness :
  ∃ c r u given,
    Ok "/proj/node_modules/core-js" = Ok c
    ∧ Ok "/proj/node_modules/regenerator-runtime/runtime.js" = Ok r
    ∧ Ok "/proj/umi" = Ok u
    ∧ Some [OtherBabelPlugin "lodash"] = Some given
    ∧ babel_plugins
        (match Hooks.modifyBabelOpts (Ok "/proj/node_modules/core-js")
                 (Ok "/proj/node_modules/regenerator-runtime/runtime.js") (Ok "/proj/umi")
                 {| babel_presets :=
                      Some [PresetEntry "/proj/node_modules/babel-preset-umi/app"
                              (Some {| preset_env := Some {[ "useBuiltIns" := JString "entry" ]};
                                       preset_others := ∅ |})];
                    babel_plugins := Some [OtherBabelPlugin "lodash"] |}
                 (Samples.world0 development) with
         | Done o _ => o
         | Thrown _ _ => {| babel_presets := None; babel_plugins := None |}
         end)
      = Some (BabelImportRedirectPlugin u u u :: given).
Proof.
  destruct (proj1 (modifyBabelOpts_result (Ok "/proj/node_modules/core-js")
            (Ok "/proj/node_modules/regenerator-runtime/runtime.js") (Ok "/proj/umi")
            {| babel_presets :=
                 Some [PresetEntry "/proj/node_modules/babel-preset-umi/app"
                         (Some {| preset_env := Some {[ "useBuiltIns" := JString "entry" ]};
                                  preset_others := ∅ |})];
               babel_plugins := Some [OtherBabelPlugin "lodash"] |}
            (Samples.world0 development)) _ _ eq_refl)
    as (c & r & u & given & H1 & H2 & H3 & H4 & H5 & _).
  exists c, r, u, given. repeat (split; [assumption|]). exact H5.
Defined.

(** ** The default cache directories and the [.mfsu] convention *)

Lemma normalize_segs_app allow xs ys : ∀ stack,
  Path.normalize_segs allow stack (xs ++ ys)
  = Path.normalize_segs allow (rev (Path.normalize_segs allow stack xs)) ys.
Proof.
  induction xs as [|x xs IH]; intros stack; simpl.
  - by rewrite rev_involutive.
  - destruct (bool_decide (x = "") || bool_decide (x = ".")); [apply IH|].
    destruct (bool_decide (x = "..")); [|apply IH].
    destruct stack as [|top below]; [apply IH|].
    destruct (bool_decide (top = "..")); apply IH.
Qed.

(** a normalized path whose last segment starts with [.mfsu] matches
    [/\.mfsu/] *)
Lemma normalize_last_segment p pre tail :
  Str.is_empty p = false →
  Path.normalize_segs (negb (Str.starts_with_slash p)) [] (Str.split Str.slash p)
  = pre ++ [".mfsu" +:+ tail] →
  Re.test Re.dot_mfsu (Path.normalize p) = true.
Proof.
  intros Hp Hsegs. unfold Path.normalize. rewrite Hp, Hsegs. cbn zeta.
  assert (∃ a, Str.join "/" (pre ++ [".mfsu" +:+ tail]) = a +:+ ".mfsu" +:+ tail)
    as [a Ha].
  { destruct pre as [|x pre]; [by exists ""|].
    exists (Str.join "/" (x :: pre) +:+ "/"). rewrite join_snoc by done.
    by rewrite append_assoc. }
  rewrite Ha.
  assert (Str.is_empty (a +:+ ".mfsu" +:+ tail) = false) as -> by by destruct a.
  apply test_literal_iff.
  destruct (Str.ends_with_slash p), (Str.starts_with_slash p).
  - exists ("/" +:+ a), (tail +:+ "/"). by rewrite !append_assoc.
  - exists a, (tail +:+ "/"). by rewrite !append_assoc.
  - by exists ("/" +:+ a), tail.
  - by exists a, tail.
Qed.

Lemma normalize_tail_kept p base mid kept tail :
  Str.is_empty p = false →
  Str.split Str.slash p = Str.split Str.slash base ++ mid →
  (∀ allow stack,
      Path.normalize_segs allow stack mid = rev stack ++ kept ++ [".mfsu" +:+ tail]) →
  Re.test Re.dot_mfsu (Path.normalize p) = true.
Proof.
  intros Hp Hsplit Hmid.
  apply (normalize_last_segment p
           (Path.normalize_segs (negb (Str.starts_with_slash p)) []
              (Str.split Str.slash base) ++ kept) tail Hp).
  by rewrite Hsplit, normalize_segs_app, Hmid, rev_involutive, app_assoc.
Qed.

(** X14. The default cache directory of either mode, the one used when no
    output is configured, matches [/\.mfsu/], the convention that
    [checkConfig] imposes on a configured output, whatever the project's
    cwd and temporary directory are. *)
Theorem default_path_matches_convention :
  ∀ api m,
    truthy_str (configured_output (userConfig api) m) = None →
    Re.test Re.dot_mfsu (getMfsuPath api m) = true.
Proof.
  intros api m Hnone. unfold getMfsuPath.
  destruct m; rewrite Hnone; unfold Path.join.
  - destruct (absTmpPath api) as [|c tmp] eqn:Et; [reflexivity|].
    rewrite filter_cons_True by done. rewrite !filter_cons_True by done.
    rewrite filter_nil.
    change (Str.join "/" [String c tmp; ".cache"; ".mfsu"])
      with (String c tmp +:+ "/" +:+ ".cache/.mfsu").
    apply (normalize_tail_kept _ (String c tmp) [".cache"; ".mfsu"] [".cache"] "").
    + done.
    + by rewrite split_slash.
    + intros allow stack. simpl. by rewrite <- app_assoc.
  - destruct (cwd api) as [|c dir] eqn:Ec; [reflexivity|].
    rewrite filter_cons_True by done. rewrite !filter_cons_True by done.
    rewrite filter_nil.
    change (Str.join "/" [String c dir; "./.mfsu-production"])
      with (String c dir +:+ "/" +:+ "./.mfsu-production").
    apply (normalize_tail_kept _ (String c dir) ["."; ".mfsu-production"] []
             "-production").
    + done.
    + by rewrite split_slash.
    + intros allow stack. reflexivity.
Qed.

Lemma default_path_matches_convention_witness :
  Re.test Re.dot_mfsu (getMfsuPath Samples.api0 production) = true.
Proof.
  apply (default_path_matches_convention Samples.api0 production). reflexivity.
Defined.

(** ** Where the middleware looks *)

Lemma slash_free_rev_app a : ∀ b,
  Resolver.slash_free (String.rev_app a b)
  = Resolver.slash_free a && Resolver.slash_free b.
Proof.
  induction a as [|c a IH]; intros b; simpl; [done|].
  rewrite IH. simpl. by destruct (bool_decide (c = Str.slash)), (Resolver.slash_free a).
Qed.

Lemma split_go_pieces s : ∀ cur,
  Resolver.slash_free cur = true →
  Forall (λ x, Resolver.slash_free x = true) (Str.split_go Str.slash cur s).
Proof.
  assert (Hrev : ∀ cur, Resolver.slash_free cur = true →
                        Resolver.slash_free (String.rev cur) = true).
  { intros cur Hc. unfold String.rev. by rewrite slash_free_rev_app, Hc. }
  induction s as [|c s IH]; intros cur Hc; simpl.
  - constructor; [by apply Hrev | constructor].
  - destruct (bool_decide (c = Str.slash)) eqn:E.
    + constructor; [by apply Hrev | by apply IH].
    + apply IH. simpl. by rewrite E.
Qed.

Lemma normalize_segs_segments allow : ∀ segs stack,
  Forall (λ x, Resolver.segment x = true) stack →
  Forall (λ x, Resolver.slash_free x = true) segs →
  Forall (λ x, Resolver.segment x = true) (Path.normalize_segs allow stack segs).
Proof.
  induction segs as [|seg segs IH]; intros stack Hst Hsegs; simpl.
  - by apply Forall_rev.
  - apply Forall_cons in Hsegs as [Hseg Hsegs].
    destruct (bool_decide (seg = "")) eqn:E1; [by apply IH|].
    destruct (bool_decide (seg = ".")) eqn:E2; [by apply IH|]. cbn [orb].
    destruct (bool_decide (seg = "..")) eqn:E3.
    + destruct stack as [|top below].
      * apply IH; [|done]. destruct allow; by repeat constructor.
      * apply Forall_cons in Hst as [Htop Hbelow].
        destruct (bool_decide (top = "..")); [|by apply IH].
        apply IH; [|done]. destruct allow; by repeat constructor.
    + apply IH; [|done]. constructor; [|done].
      unfold Resolver.segment. rewrite Hseg, andb_true_r.
      apply bool_decide_eq_false in E1. by destruct seg.
Qed.

(** without a segment [..] nothing is taken from the stack *)
Lemma normalize_segs_no_dotdot allow : ∀ segs stack,
  ".." ∉ segs →
  Path.normalize_segs allow stack segs
  = rev stack ++ filter (λ s, s ≠ "" ∧ s ≠ ".") segs.
Proof.
  induction segs as [|seg segs IH]; intros stack Hno; simpl.
  - by rewrite filter_nil, app_nil_r.
  - apply not_elem_of_cons in Hno as [Hne Hno].
    destruct (bool_decide (seg = "")) eqn:E1.
    { apply bool_decide_eq_true in E1. rewrite filter_cons_False by tauto.
      by apply IH. }
    destruct (bool_decide (seg = ".")) eqn:E2.
    { apply bool_decide_eq_true in E2. rewrite filter_cons_False by tauto.
      by apply IH. }
    cbn [orb]. rewrite bool_decide_eq_false_2 by done.
    apply bool_decide_eq_false in E1, E2.
    rewrite filter_cons_True by done. rewrite IH by done. simpl.
    by rewrite <- app_assoc.
Qed.

Lemma segments_trailing_slash segs :
  segs ≠ [] → Forall (λ s, Resolver.segment s = true) segs →
  Resolver.segments ("/" +:+ Str.join "/" segs +:+ "/") = segs.
Proof.
  intros Hne Hall. unfold Resolver.segments.
  change ("/" +:+ Str.join "/" segs +:+ "/")
    with ("" +:+ "/" +:+ (Str.join "/" segs +:+ "/" +:+ "")).
  rewrite !split_slash, split_join by done.
  change (Str.split Str.slash "") with [""].
  rewrite !filter_app, !filter_cons_False, !filter_nil by done.
  rewrite app_nil_r. by apply filter_segments.
Qed.

(** the segments of a normalized absolute path *)
Lemma segments_normalize p :
  Str.starts_with_slash p = true →
  Resolver.segments (Path.normalize p)
  = Path.normalize_segs false [] (Str.split Str.slash p).
Proof.
  intros Habs. unfold Path.normalize.
  destruct p as [|c p]; [discriminate|]. cbn [Str.is_empty]. rewrite Habs.
  cbn [negb]. cbv zeta.
  pose proof (normalize_segs_segments false (Str.split Str.slash (String c p)) []
                (Forall_nil_2 _) (split_go_pieces _ "" eq_refl)) as Hall.
  destruct (Path.normalize_segs false [] (Str.split Str.slash (String c p)))
    as [|x segs] eqn:E; [reflexivity|].
  assert (Str.is_empty (Str.join "/" (x :: segs)) = false) as ->.
  { apply Forall_cons in Hall as [Hx _]. apply andb_prop in Hx as [Hx _].
    destruct x as [|d x]; [discriminate|]. by destruct segs. }
  destruct (Str.ends_with_slash (String c p)).
  - by apply segments_trailing_slash.
  - by apply (segments_show_path (x :: segs)).
Qed.

Lemma segments_join_under dir rel :
  Str.starts_with_slash dir = true →
  ".." ∉ Str.split Str.slash rel →
  Resolver.segments (Path.join [dir; rel])
  = Resolver.segments (Path.normalize dir)
    ++ filter (λ s, s ≠ "" ∧ s ≠ ".") (Str.split Str.slash rel).
Proof.
  intros Habs Hno. unfold Path.join.
  destruct dir as [|c dir]; [discriminate|].
  rewrite filter_cons_True by done.
  destruct rel as [|r rel].
  - rewrite filter_cons_False by done. rewrite filter_nil.
    change (Str.split Str.slash "") with [""].
    rewrite filter_cons_False by tauto. by rewrite filter_nil, app_nil_r.
  - rewrite filter_cons_True by done. rewrite filter_nil.
    change (Str.join "/" [String c dir; String r rel])
      with (String c dir +:+ "/" +:+ String r rel).
    rewrite !segments_normalize by done.
    rewrite split_slash, normalize_segs_app, normalize_segs_no_dotdot by done.
    by rewrite rev_involutive.
Qed.

(** X16. A file that the middleware sends lies under the development
    cache directory whenever the requested path, the match of the public
    path replaced, holds no segment [..]: the segments of the file's
    location are those of the directory followed by the segments of the
    requested path, the empty ones and [.] left out. (With [..] the
    lookup can leave the directory, see [traversal_leaves_directory].) *)
Theorem lookup_stays_in_directory :
  ∀ rt api w files req headers body,
    Str.starts_with_slash (cwd api) = true →
    Str.starts_with_slash (absTmpPath api) = true →
    Interceptor.middleware rt api w files req = Sent headers body →
    ∃ replace content,
      RegExp rt ("^" +:+ publicPath w) = Some replace
      ∧ files !! Path.join [getMfsuPath api development;
                            Str.slice1 (replace (req_path req))]
        = Some (File content)
      ∧ (".." ∉ Str.split Str.slash (Str.slice1 (replace (req_path req))) →
         Resolver.segments
           (Path.join [getMfsuPath api development;
                       Str.slice1 (replace (req_path req))])
         = Resolver.segments (Path.normalize (getMfsuPath api development))
           ++ filter (λ s, s ≠ "" ∧ s ≠ ".")
                (Str.split Str.slash (Str.slice1 (replace (req_path req))))).
Proof.
  intros rt api w files req headers body Hcwd Htmp Hs.
  apply middleware_sent in Hs as (replace & content & Hre & _ & _ & Hf & _).
  exists replace, content. split; [done|]. split; [done|].
  intros Hno. apply segments_join_under; [|done].
  by apply getMfsuPath_absolute.
Qed.

Lemma lookup_stays_in_directory_witness :
  ∃ replace content,
    RegExp Samples.node0 ("^" +:+ publicPath (Samples.world0 development)) = Some replace
    ∧ Samples.files0 !! Path.join [getMfsuPath Samples.api0 development;
                                   Str.slice1 (replace "/./mf-dep_vendor.js")]
      = Some (File content)
    ∧ (".." ∉ Str.split Str.slash (Str.slice1 (replace "/./mf-dep_vendor.js")) →
       Resolver.segments
         (Path.join [getMfsuPath Samples.api0 development;
                     Str.slice1 (replace "/./mf-dep_vendor.js")])
       = Resolver.segments (Path.normalize (getMfsuPath Samples.api0 development))
         ++ filter (λ s, s ≠ "" ∧ s ≠ ".")
              (Str.split Str.slash (Str.slice1 (replace "/./mf-dep_vendor.js")))).
Proof.
  apply (lookup_stays_in_directory Samples.node0 Samples.api0
           (Samples.world0 development) Samples.files0
           {| req_path := "/./mf-dep_vendor.js"; req_url := "/./mf-dep_vendor.js" |}
           [("content-type", "application/javascript"); Interceptor.immutable_header]
           "vendor").
  - reflexivity.
  - reflexivity.
  - vm_compute. reflexivity.
Defined.

(** a path that climbs with [..] is looked up, and served, outside the
    development cache directory *)
Example traversal_leaves_directory :
  getMfsuPath Samples.api0 development = "/proj/src/.umi/.cache/.mfsu"
  ∧ Interceptor.middleware Samples.node0 Samples.api0 (Samples.world0 development)
      Samples.files_outside {| req_path := "/../secret.txt"; req_url := "/../secret.txt" |}
    = Sent [("content-type", "application/octet-stream"); Interceptor.immutable_header]
           "secret"
  ∧ Samples.files_outside !! "/proj/src/.umi/.cache/secret.txt" = Some (File "secret").
Proof. vm_compute. repeat split. Qed.
